(** * exception: classified errors over panic/recover (packages [throw] and [try])

    A shallow embedding of the Go packages [throw] (throw/throw.go) and
    [try] (try/try.go), and the properties of the dispatch engine stated in
    the specification.

    Modelling conventions.
    - A Go [int] is a [Z]; codes are only compared, never computed with.
      [math.MinInt] is taken on a 64-bit platform.
    - A Go [map[string]interface{}] is a reference: the maps live in a heap,
      an [Error] holds [None] (a nil map) or the location of its map, and
      copying an [Error] value copies the location, not the map.
    - A Go function value (protected block, handler, filter, finalizer) is a
      function on the program store that either returns or panics; what it
      did to the store before panicking stays done.  Such a function sees the
      heap and the rest of the program state, not the private fields of the
      engine that calls it.
    - A panic payload is never the nil interface: since Go 1.21 [panic(nil)]
      reaches [recover] as a [*runtime.PanicNilError].
    - Besides the store, a run of the engine keeps the list of the calls it
      makes ([calls]), so that how often and in which order a callback is
      called can be stated; callbacks neither read nor write that list.
    - [runtime.Stack] and the [%v] / [%T] verbs of [fmt.Sprintf] belong to the
      Go runtime and library; they are parameters ([Runtime]). *)

From Stdlib Require Import ZArith String.
From stdpp Require Import gmap strings list fin_maps pretty.

Open Scope Z_scope.

(** ** Go values and the shared program store *)

Definition loc := positive.

Module Error.
(** [type Error struct { Index int; Message string; Stack string;
    Context map[string]interface{} }] *)
Record t : Type := mk {
  Index : Z;
  Message : string;
  Stack : string;
  Context : option loc
}.
End Error.

(** A Go [error] interface value, as far as this code looks at it: nil, or a
    value whose [Error()] method returns a text. *)
Inductive error : Type :=
| nil_error
| an_error (text : string).

(** The dynamic values of [interface{}] that occur as panic payloads and as
    context values.  The nil interface value is not among them: nothing is
    raised with nil here, and a context map of the model holds no nil
    value. *)
Inductive any : Type :=
| VError (e : Error.t)                 (* a throw.Error *)
| VPass                                (* throw.Pass{} *)
| VInt (z : Z)
| VString (s : string)
| VBool (b : bool)
| VErr (text : string)                 (* a non-nil error value *)
| VOther (type_name : string) (text : string).

Class Runtime : Type := {
  (** everything of the program state that is not a context map *)
  Env : Type;
  (** the text [runtime.Stack(buf, false)] has to offer in that state *)
  stack_text : Env -> string;
  (** [fmt.Sprintf("%v", x)] and [fmt.Sprintf("%T", x)] *)
  Sprint_v : any -> string;
  Sprint_T : any -> string
}.

Record Store `{Runtime} : Type := mkStore {
  heap : gmap loc (gmap string any);
  env : Env
}.
Arguments mkStore {_} heap env.

(** A call either returns a value or panics with a payload. *)
Inductive Outcome (A : Type) : Type :=
| Returned (a : A)
| Panicked (p : any).
Arguments Returned {A} a.
Arguments Panicked {A} p.

(** A computation over a state [S]: state in, outcome and state out.  A
    panic keeps the state reached when it was raised. *)
Definition M (S A : Type) : Type := S -> Outcome A * S.

Definition ret {S A} (a : A) : M S A := fun s => (Returned a, s).
Definition panic {S A} (p : any) : M S A := fun s => (Panicked p, s).
Definition bind {S A B} (c : M S A) (k : A -> M S B) : M S B :=
  fun s => match c s with
           | (Returned a, s') => k a s'
           | (Panicked p, s') => (Panicked p, s')
           end.

(** A Go function body: a computation over the program store. *)
Definition Go `{Runtime} (A : Type) : Type := M Store A.

Declare Scope go_scope.
Delimit Scope go_scope with go.
Notation "'do' x <- c ; k" := (bind c (fun x => k))
  (at level 10, x name, c at level 100, k at level 200,
   format "'[v' 'do'  x  <-  c ; '/' k ']'") : go_scope.
Notation "c ;; k" := (bind c (fun _ => k))
  (at level 100, k at level 200, right associativity) : go_scope.

(** ** Package throw *)

Module throw.

(** [const FallbackErrorIndex = math.MinInt] *)
Definition FallbackErrorIndex : Z := - 2 ^ 63.

Section WithRuntime.
Context `{Runtime}.

(** The context map an [Error] refers to; a location never written holds
    the empty map. *)
Definition map_at (h : gmap loc (gmap string any)) (l : loc) : gmap string any :=
  default ∅ (h !! l).

(** [make(map[string]interface{})]: a location not in use. *)
Definition new_loc (h : gmap loc (gmap string any)) : loc := fresh (dom h).

(** [func (e Error) WithContext(key string, value interface{}) Error]:
    the receiver is a copy of the struct, the map it refers to is not
    copied. *)
Definition WithContext (e : Error.t) (key : string) (value : any)
    (h : gmap loc (gmap string any)) : Error.t * gmap loc (gmap string any) :=
  match Error.Context e with
  | None =>
      let l := new_loc h in
      (Error.mk (Error.Index e) (Error.Message e) (Error.Stack e) (Some l),
       <[l := {[key := value]}]> h)
  | Some l =>
      (e, <[l := <[key := value]> (map_at h l)]> h)
  end.

(** [func (e Error) WithContextMap(ctx map[string]interface{}) Error];
    [ctx ∪ m] takes the entry of [ctx] where both have the key. *)
Definition WithContextMap (e : Error.t) (ctx : gmap string any)
    (h : gmap loc (gmap string any)) : Error.t * gmap loc (gmap string any) :=
  match Error.Context e with
  | None =>
      let l := new_loc h in
      (Error.mk (Error.Index e) (Error.Message e) (Error.Stack e) (Some l),
       <[l := ctx]> h)
  | Some l =>
      (e, <[l := ctx ∪ map_at h l]> h)
  end.

(** [func (e Error) GetContext(key string) (interface{}, bool)] *)
Definition GetContext (e : Error.t) (key : string)
    (h : gmap loc (gmap string any)) : option any * bool :=
  match Error.Context e with
  | None => (None, false)
  | Some l =>
      match map_at h l !! key with
      | Some v => (Some v, true)
      | None => (None, false)
      end
  end.

(** [func (e Error) HasContext(key string) bool] *)
Definition HasContext (e : Error.t) (key : string)
    (h : gmap loc (gmap string any)) : bool :=
  match Error.Context e with
  | None => false
  | Some l => bool_decide (is_Some (map_at h l !! key))
  end.

(** [func (e Error) Error() string] *)
Definition Error_ (e : Error.t) : string := Error.Message e.

(** [runtime.Stack(buf, false)]: fills [buf] with as much of the text as
    fits and returns the number of bytes written. *)
Definition runtime_Stack (size : nat) (s : Store) : nat :=
  Nat.min size (String.length (stack_text (env s))).

(** [func GetPanicStack() string] *)
Definition GetPanicStack : Go string := fun s =>
  let initialSize := 1024%nat in
  let n := runtime_Stack initialSize s in
  if (n =? initialSize)%nat
  then
    let n := runtime_Stack (initialSize * 2) s in
    (Returned (substring 0 n (stack_text (env s))), s)
  else (Returned (substring 0 n (stack_text (env s))), s).

(** [func Index(index int, message string)] *)
Definition Index (index : Z) (message : string) : Go unit :=
  (do stack <- GetPanicStack;
   panic (VError (Error.mk index message stack None)))%go.

(** [func IndexNoStack(index int, message string)] *)
Definition IndexNoStack (index : Z) (message : string) : Go unit :=
  panic (VError (Error.mk index message "" None)).

(** [func IndexWithContext(index, message, key, ctxValue)]: the map
    literal allocates a map holding the one entry. *)
Definition IndexWithContext (index : Z) (message : string)
    (key : string) (ctxValue : any) : Go unit :=
  (do stack <- GetPanicStack;
   fun s =>
     let l := new_loc (heap s) in
     (Panicked (VError (Error.mk index message stack (Some l))),
      mkStore (<[l := {[key := ctxValue]}]> (heap s)) (env s)))%go.

(** [func New(message string)] *)
Definition New (message : string) : Go unit :=
  Index FallbackErrorIndex message.

(** [func Err(err error)] *)
Definition Err (err : error) : Go unit :=
  match err with
  | an_error text => Index FallbackErrorIndex text
  | nil_error => ret tt
  end.

(** [func True(value bool, message string)] *)
Definition True_ (value : bool) (message : string) : Go unit :=
  if value then Index FallbackErrorIndex message else ret tt.

(** [func False(value bool, message string)] *)
Definition False_ (value : bool) (message : string) : Go unit :=
  if negb value then Index FallbackErrorIndex message else ret tt.

(** [func IndexErr(index int, err error)] *)
Definition IndexErr (index : Z) (err : error) : Go unit :=
  match err with
  | an_error text => Index index text
  | nil_error => ret tt
  end.

(** [func ValueErr[T any](value T, err error) T] *)
Definition ValueErr {T : Type} (value : T) (err : error) : Go T :=
  (match err with
   | an_error text => Index FallbackErrorIndex text
   | nil_error => ret tt
   end;;
   ret value)%go.

(** [func IndexNoStackWithContext(index, message, key, ctxValue)] *)
Definition IndexNoStackWithContext (index : Z) (message : string)
    (key : string) (ctxValue : any) : Go unit :=
  fun s =>
    let l := new_loc (heap s) in
    (Panicked (VError (Error.mk index message "" (Some l))),
     mkStore (<[l := {[key := ctxValue]}]> (heap s)) (env s)).

(** [func NewWithContext(message, key, ctxValue)] *)
Definition NewWithContext (message : string) (key : string) (ctxValue : any) : Go unit :=
  IndexWithContext FallbackErrorIndex message key ctxValue.

(** [func ErrWithContext(err error, key string, ctxValue interface{})] *)
Definition ErrWithContext (err : error) (key : string) (ctxValue : any) : Go unit :=
  match err with
  | an_error text => IndexWithContext FallbackErrorIndex text key ctxValue
  | nil_error => ret tt
  end.

(** [func TrueWithContext(value bool, message, key, ctxValue)] *)
Definition TrueWithContext (value : bool) (message : string)
    (key : string) (ctxValue : any) : Go unit :=
  if value then IndexWithContext FallbackErrorIndex message key ctxValue else ret tt.

(** [func FalseWithContext(value bool, message, key, ctxValue)] *)
Definition FalseWithContext (value : bool) (message : string)
    (key : string) (ctxValue : any) : Go unit :=
  if negb value then IndexWithContext FallbackErrorIndex message key ctxValue else ret tt.

(** [func TrueIndex(index int, value bool, message string)] *)
Definition TrueIndex (index : Z) (value : bool) (message : string) : Go unit :=
  if value then Index index message else ret tt.

(** [func TrueIndexWithContext(index, value, message, key, ctxValue)] *)
Definition TrueIndexWithContext (index : Z) (value : bool) (message : string)
    (key : string) (ctxValue : any) : Go unit :=
  if value then IndexWithContext index message key ctxValue else ret tt.

(** [func FalseIndex(index int, value bool, message string)] *)
Definition FalseIndex (index : Z) (value : bool) (message : string) : Go unit :=
  if negb value then Index index message else ret tt.

(** [func FalseIndexWithContext(index, value, message, key, ctxValue)] *)
Definition FalseIndexWithContext (index : Z) (value : bool) (message : string)
    (key : string) (ctxValue : any) : Go unit :=
  if negb value then IndexWithContext index message key ctxValue else ret tt.

(** What calling a nil function raises. *)
Definition nil_func_call : any :=
  VOther "runtime.errorString"
         "runtime error: invalid memory address or nil pointer dereference".

(** [err := fn()] for [fn func() error]; a nil [fn] is [None]. *)
Definition call_fn (fn : option (Go error)) : Go error :=
  match fn with
  | Some f => f
  | None => panic nil_func_call
  end.

(** [func FuncErr(fn func() error)] *)
Definition FuncErr (fn : option (Go error)) : Go unit :=
  (do err <- call_fn fn;
   match err with
   | an_error text => Index FallbackErrorIndex text
   | nil_error => ret tt
   end)%go.

(** [func FuncErrWithContext(fn func() error, key, ctxValue)] *)
Definition FuncErrWithContext (fn : option (Go error))
    (key : string) (ctxValue : any) : Go unit :=
  (do err <- call_fn fn;
   match err with
   | an_error text => IndexWithContext FallbackErrorIndex text key ctxValue
   | nil_error => ret tt
   end)%go.

(** [func ValueErrWithContext[T any](value T, err error, key, ctxValue) T] *)
Definition ValueErrWithContext {T : Type} (value : T) (err : error)
    (key : string) (ctxValue : any) : Go T :=
  (match err with
   | an_error text => IndexWithContext FallbackErrorIndex text key ctxValue
   | nil_error => ret tt
   end;;
   ret value)%go.

(** [func IndexErrWithContext(index int, err error, key, ctxValue)] *)
Definition IndexErrWithContext (index : Z) (err : error)
    (key : string) (ctxValue : any) : Go unit :=
  match err with
  | an_error text => IndexWithContext index text key ctxValue
  | nil_error => ret tt
  end.

End WithRuntime.
End throw.

(** ** Package try *)

Module try.

(** The registry slot a callback was taken from. *)
Inductive Slot : Type :=
| SFilter (i : nat)                  (* ts.filters[i] *)
| SSpecific (index : Z)              (* ts.specificHandlers[index] *)
| SGroup (index : Z) (i : nat)       (* ts.groupHandlers[index][i] *)
| SFallback                          (* ts.fallbackHandler *)
| SGlobal.                           (* ts.globalHandler *)

(** What the engine calls, in the order it calls it. *)
Inductive Event : Type :=
| EvTry                              (* ts.tryFunc() *)
| EvCall (slot : Slot) (err : Error.t)
| EvFinally.                         (* finally() *)

(** The value of a nil function call. *)
Definition nil_dereference : any :=
  VOther "runtime.errorString"
         "runtime error: invalid memory address or nil pointer dereference".

Section WithRuntime.
Context `{Runtime}.

(** [type ErrorHandler func(throw.Error)]; a nil handler is [None] of
    [option ErrorHandler]. *)
Definition ErrorHandler : Type := Error.t -> Go unit.
Definition FilterFunc : Type := Error.t -> Go bool.

(** [type Try struct].  The two maps are made by [Run] and never nil;
    the registration methods store no nil handler and no nil filter. *)
Record Try : Type := mkTry {
  specificHandlers : gmap Z ErrorHandler;
  groupHandlers : gmap Z (list ErrorHandler);
  globalHandler : option ErrorHandler;
  fallbackHandler : option ErrorHandler;
  tryFunc : option (Go unit);
  filters : list FilterFunc
}.

(** [type Group []int] *)
Definition Group_ : Type := list Z.

(** The address of an engine.  A method with receiver [ts *Try] is a
    computation on the engine [ts] points to. *)
Definition ptr : Type := positive.
Definition Method (A : Type) : Type := Try -> A * Try.

(** [func Run(tryHandler func()) *Try]: the engine behind the returned
    pointer. *)
Definition Run (tryHandler : option (Go unit)) : Try :=
  mkTry ∅ ∅ None None tryHandler [].

(** [func (ts *Try) Index(index int, handler ErrorHandler) *Try] *)
Definition Index (ts : ptr) (index : Z) (handler : option ErrorHandler) : Method ptr :=
  fun t =>
    match handler with
    | Some h =>
        if bool_decide (index ≠ 0) && bool_decide (index ≠ throw.FallbackErrorIndex)
        then (ts, mkTry (<[index := h]> (specificHandlers t)) (groupHandlers t)
                        (globalHandler t) (fallbackHandler t) (tryFunc t) (filters t))
        else (ts, t)
    | None => (ts, t)
    end.

(** [func (ts *Try) Catch(handler ErrorHandler) *Try] *)
Definition Catch (ts : ptr) (handler : option ErrorHandler) : Method ptr :=
  fun t =>
    match handler with
    | Some h => (ts, mkTry (specificHandlers t) (groupHandlers t)
                           (Some h) (fallbackHandler t) (tryFunc t) (filters t))
    | None => (ts, t)
    end.

(** [func (ts *Try) Unknown(handler ErrorHandler) *Try] *)
Definition Unknown (ts : ptr) (handler : option ErrorHandler) : Method ptr :=
  fun t =>
    match handler with
    | Some h => (ts, mkTry (specificHandlers t) (groupHandlers t)
                           (globalHandler t) (Some h) (tryFunc t) (filters t))
    | None => (ts, t)
    end.

(** The loop of [Group]:
    [ts.groupHandlers[index] = append(ts.groupHandlers[index], handler)]
    for each admitted [index]; a missing entry reads as the nil slice. *)
Fixpoint Group_loop (group : Group_) (h : ErrorHandler)
    (g : gmap Z (list ErrorHandler)) : gmap Z (list ErrorHandler) :=
  match group with
  | [] => g
  | index :: rest =>
      if bool_decide (index ≠ 0) && bool_decide (index ≠ throw.FallbackErrorIndex)
      then Group_loop rest h (<[index := default [] (g !! index) ++ [h]]> g)
      else Group_loop rest h g
  end.

(** [func (ts *Try) Group(group Group, handler ErrorHandler) *Try] *)
Definition Group (ts : ptr) (group : Group_) (handler : option ErrorHandler) : Method ptr :=
  fun t =>
    match handler with
    | Some h =>
        if (0 <? length group)%nat
        then (ts, mkTry (specificHandlers t) (Group_loop group h (groupHandlers t))
                        (globalHandler t) (fallbackHandler t) (tryFunc t) (filters t))
        else (ts, t)
    | None => (ts, t)
    end.

(** [func (ts *Try) Filter(filter func(throw.Error) bool) *Try] *)
Definition Filter (ts : ptr) (filter : option FilterFunc) : Method ptr :=
  fun t =>
    match filter with
    | Some f => (ts, mkTry (specificHandlers t) (groupHandlers t)
                           (globalHandler t) (fallbackHandler t) (tryFunc t)
                           (filters t ++ [f]))
    | None => (ts, t)
    end.

(** *** Execution *)

(** The engine at work: the program store, and the calls made so far. *)
Record Machine : Type := mkMachine {
  store : Store;
  calls : list Event
}.

Definition Exec (A : Type) : Type := M Machine A.

(** Calling a function value: the call is recorded, the function works on
    the store. *)
Definition invoke {A} (ev : Event) (f : Go A) : Exec A :=
  fun m =>
    let (r, s) := f (store m) in
    (r, mkMachine s (calls m ++ [ev])).

(** Code of the engine itself that works on the store. *)
Definition lift {A} (c : Go A) : Exec A :=
  fun m =>
    let (r, s) := c (store m) in
    (r, mkMachine s (calls m)).

(** An engine call seen from the code that makes it. *)
Definition as_block {A} (c : Exec A) : Go A :=
  fun s =>
    let (r, m) := c (mkMachine s []) in
    (r, store m).

(** Step 0 of [executeHandlers]:
    [for _, filter := range ts.filters { if !filter(err) { return false, true } }];
    the result is whether every filter let the error through. *)
Fixpoint applyFilters (i : nat) (fs : list FilterFunc) (err : Error.t) : Exec bool :=
  match fs with
  | [] => ret true
  | filter :: rest =>
      (do ok <- invoke (EvCall (SFilter i) err) (filter err);
       if negb ok then ret false else applyFilters (S i) rest err)%go
  end.

(** Step 2 of [executeHandlers]:
    [for _, handler := range handlers { handler(err); handled = true }] *)
Fixpoint groupLoop (i : nat) (handlers : list ErrorHandler) (err : Error.t)
    (handled : bool) : Exec bool :=
  match handlers with
  | [] => ret handled
  | handler :: rest =>
      (invoke (EvCall (SGroup (Error.Index err) i) err) (handler err);;
       groupLoop (S i) rest err true)%go
  end.

(** [func (ts *Try) executeHandlers(err throw.Error) (handled bool, filtered bool)] *)
Definition executeHandlers (ts : Try) (err : Error.t) : Exec (bool * bool) :=
  (do pass <- applyFilters 0 (filters ts) err;
   if negb pass then ret (false, true) else
   let handled := false in
   let hasSpecificHandler := false in
   do hs <- match specificHandlers ts !! Error.Index err with
            | Some handler =>
                invoke (EvCall (SSpecific (Error.Index err)) err) (handler err);;
                ret (true, true)
            | None => ret (handled, hasSpecificHandler)
            end;
   let handled := fst hs in
   let hasSpecificHandler := snd hs in
   do handled <- match groupHandlers ts !! Error.Index err with
                 | Some handlers => groupLoop 0 handlers err handled
                 | None => ret handled
                 end;
   do handled <- match fallbackHandler ts with
                 | Some fallback =>
                     if negb hasSpecificHandler
                     then invoke (EvCall SFallback err) (fallback err);; ret true
                     else ret handled
                 | None => ret handled
                 end;
   do handled <- match globalHandler ts with
                 | Some global =>
                     invoke (EvCall SGlobal err) (global err);; ret true
                 | None => ret handled
                 end;
   ret (handled, false))%go.

(** [func (ts *Try) normalizeError(recoverObj interface{}) throw.Error] *)
Definition normalizeError (recoverObj : any) : Go Error.t :=
  match recoverObj with
  | VError e => ret e
  | _ =>
      (do stack <- throw.GetPanicStack;
       let message :=
         ("unexpected panic: " ++ Sprint_v recoverObj
            ++ " (type: " ++ Sprint_T recoverObj ++ ")")%string in
       fun s =>
         let l := throw.new_loc (heap s) in
         (Returned (Error.mk throw.FallbackErrorIndex message stack (Some l)),
          mkStore (<[l := ∅]> (heap s)) (env s)))%go
  end.

(** [ts.tryFunc()]; calling a nil function panics. *)
Definition call_tryFunc (ts : Try) : Exec unit :=
  match tryFunc ts with
  | Some f => invoke EvTry f
  | None => panic nil_dereference
  end.

(** The second deferred function of [Finally], given how the protected
    block ended: [recover()], and what follows it. *)
Definition recovered (ts : Try) (r : Outcome unit) : Exec unit :=
  match r with
  | Returned _ => ret tt
  | Panicked recoverObj =>
      match recoverObj with
      | VPass => ret tt
      | _ =>
          (do err <- lift (normalizeError recoverObj);
           do hf <- executeHandlers ts err;
           let handled := fst hf in
           let filtered := snd hf in
           if negb handled && negb filtered
           then panic (VError err)
           else ret tt)%go
      end
  end.

(** The first deferred function of [Finally], which runs last:
    [if finally != nil { finally() }].  It does not recover, so a pending
    panic stays pending unless [finally] itself panics. *)
Definition deferred_finally (finally : option (Go unit)) (r : Outcome unit) : Exec unit :=
  match finally with
  | Some f =>
      fun m =>
        match invoke EvFinally f m with
        | (Returned _, m') => (r, m')
        | (Panicked p, m') => (Panicked p, m')
        end
  | None => fun m => (r, m)
  end.

(** [func (ts *Try) Finally(finally func())] *)
Definition Finally (ts : Try) (finally : option (Go unit)) : Exec unit :=
  fun m =>
    let (r, m1) := call_tryFunc ts m in
    let (r', m2) := recovered ts r m1 in
    deferred_finally finally r' m2.

(** [func (ts *Try) Do()] *)
Definition Do (ts : Try) : Exec unit := Finally ts None.

End WithRuntime.
End try.

(** ** Vocabulary of the properties *)

(** The computation [c], started in [s], panics. *)
Definition raises {S A : Type} (c : M S A) (s : S) : Prop :=
  exists p, fst (c s) = Panicked p.

(** What the specification says of [WithContext] and shared state: the
    context read through the receiver [e] is the same after the call as
    before it. *)
Definition WithContext_keeps_receiver (e : Error.t) (key : string) (value : any)
    (h : gmap loc (gmap string any)) : Prop :=
  forall k, throw.GetContext e k (snd (throw.WithContext e key value h))
            = throw.GetContext e k h.

(** The error of [TestWithContextMethod] after its first [WithContext], and
    the heap it lives in. *)
Definition server_error : Error.t := Error.mk 500 "server error" "stack trace" None.
Definition server_error_1 : Error.t * gmap loc (gmap string any) :=
  throw.WithContext server_error "key1" (VString "value1") ∅.

(** The result [r] of a call made in store [s] is a panic with a
    [throw.Error] that has the given code and message, the stack
    [GetPanicStack] returns in [s] and no context; the store is still [s]. *)
Definition plain_raise `{Runtime} {A : Type} (r : Outcome A * Store) (s : Store)
    (index : Z) (message : string) : Prop :=
  exists stack,
    throw.GetPanicStack s = (Returned stack, s) /\
    r = (Panicked (VError (Error.mk index message stack None)), s).

(** The result [r] of a call made in store [s] is a panic with a
    [throw.Error] that has the given code and message and a context map, new
    in the heap, that holds [key -> v] and nothing else; no map that was
    there has changed. *)
Definition context_raise `{Runtime} {A : Type} (r : Outcome A * Store) (s : Store)
    (index : Z) (message : string) (key : string) (v : any) : Prop :=
  exists e s',
    r = (Panicked (VError e), s') /\
    Error.Index e = index /\
    Error.Message e = message /\
    Error.Context e = Some (throw.new_loc (heap s)) /\
    heap s !! throw.new_loc (heap s) = None /\
    throw.GetContext e key (heap s') = (Some v, true) /\
    (forall k, k <> key -> throw.GetContext e k (heap s') = (None, false)) /\
    (forall l, is_Some (heap s !! l) -> heap s' !! l = heap s !! l) /\
    env s' = env s.

(** ** Vocabulary of the dispatch properties *)

Section Vocabulary.
Context `{Runtime}.

(** Codes no handler is registered for. *)
Definition reserved (index : Z) : Prop :=
  index = 0 \/ index = throw.FallbackErrorIndex.

#[global] Instance reserved_dec (index : Z) : Decision (reserved index).
Proof. unfold reserved. apply _. Defined.

(** The engine holds no handler for a reserved code. *)
Definition no_reserved_entry (t : try.Try) : Prop :=
  forall index, reserved index ->
    try.specificHandlers t !! index = None /\ try.groupHandlers t !! index = None.

(** One registration call of a chain [Run(f).Index(..).Group(..)...]. *)
Inductive Registration : Type :=
| RIndex (index : Z) (handler : option try.ErrorHandler)
| RCatch (handler : option try.ErrorHandler)
| RUnknown (handler : option try.ErrorHandler)
| RGroup (group : try.Group_) (handler : option try.ErrorHandler)
| RFilter (filter : option try.FilterFunc).

Definition register (ts : try.ptr) (r : Registration) : try.Method try.ptr :=
  match r with
  | RIndex index handler => try.Index ts index handler
  | RCatch handler => try.Catch ts handler
  | RUnknown handler => try.Unknown ts handler
  | RGroup group handler => try.Group ts group handler
  | RFilter filter => try.Filter ts filter
  end.

(** A chain of calls: each is made on the pointer the one before returned. *)
Fixpoint chain (ts : try.ptr) (rs : list Registration) : try.Method try.ptr :=
  fun t =>
    match rs with
    | [] => (ts, t)
    | r :: rest => let (ts', t') := register ts r t in chain ts' rest t'
    end.

(** How often [index] stands in a group. *)
Definition occurrences (index : Z) (group : list Z) : nat :=
  length (filter (fun i => i = index) group).

(** Steps 5b to 5e of the specification: the handlers that resolution calls
    for [e], each with the slot it is registered in, in the order the
    specification gives. *)
Fixpoint group_slots (index : Z) (i : nat) (handlers : list try.ErrorHandler)
    : list (try.Slot * try.ErrorHandler) :=
  match handlers with
  | [] => []
  | h :: rest => (try.SGroup index i, h) :: group_slots index (S i) rest
  end.

Definition resolution_order (ts : try.Try) (e : Error.t)
    : list (try.Slot * try.ErrorHandler) :=
  let index := Error.Index e in
  let specific :=
    match try.specificHandlers ts !! index with
    | Some h => [(try.SSpecific index, h)]
    | None => []
    end in
  let group := group_slots index 0 (default [] (try.groupHandlers ts !! index)) in
  let fallback :=
    match try.specificHandlers ts !! index, try.fallbackHandler ts with
    | None, Some h => [(try.SFallback, h)]
    | _, _ => []
    end in
  let global :=
    match try.globalHandler ts with
    | Some h => [(try.SGlobal, h)]
    | None => []
    end in
  specific ++ group ++ fallback ++ global.

(** Calling the handlers of a list one after the other; a handler that
    panics ends it. *)
Fixpoint invoke_all (hs : list (try.Slot * try.ErrorHandler)) (e : Error.t) : try.Exec unit :=
  match hs with
  | [] => ret tt
  | (slot, h) :: rest =>
      (try.invoke (try.EvCall slot e) (h e);; invoke_all rest e)%go
  end.

(** The outcome of the engine after a run of handlers: [a] if they all
    returned, the panic of the one that did not otherwise. *)
Definition and_then {A : Type} (r : Outcome unit * try.Machine) (a : A)
    : Outcome A * try.Machine :=
  match r with
  | (Returned _, m) => (Returned a, m)
  | (Panicked p, m) => (Panicked p, m)
  end.

(** Whether a list of handlers has a handler. *)
Definition some_handler (hs : list (try.Slot * try.ErrorHandler)) : bool :=
  match hs with
  | [] => false
  | _ :: _ => true
  end.

(** The calls a list of handlers stands for. *)
Definition handler_calls (hs : list (try.Slot * try.ErrorHandler)) (e : Error.t)
    : list try.Event :=
  map (fun sh => try.EvCall (fst sh) e) hs.

(** The calls of the filters [i], [i+1], ..., [i+n-1]. *)
Definition filter_calls (i n : nat) (e : Error.t) : list try.Event :=
  map (fun j => try.EvCall (try.SFilter j) e) (seq i n).

(** A payload that is no [throw.Error]. *)
Definition unclassified (p : any) : Prop := forall e, p <> VError e.

(** A call of a filter or a handler with [e]. *)
Definition callback_call (e : Error.t) (ev : try.Event) : Prop :=
  exists slot, ev = try.EvCall slot e.

(** What calling an optional finalizer adds to the calls. *)
Definition finally_calls (finally : option (Go unit)) : list try.Event :=
  match finally with
  | Some _ => [try.EvFinally]
  | None => []
  end.

(** A callback that returns, whatever the store. *)
Definition handler_returns (h : try.ErrorHandler) (e : Error.t) : Prop :=
  forall s, exists s', h e s = (Returned tt, s').

Definition finally_returns (finally : option (Go unit)) : Prop :=
  match finally with
  | Some f => forall s, exists s', f s = (Returned tt, s')
  | None => True
  end.

(** The call of a handler, as opposed to a filter, the protected block or
    the finalizer. *)
Definition handler_call (ev : try.Event) : Prop :=
  match ev with
  | try.EvCall (try.SFilter _) _ => False
  | try.EvCall _ _ => True
  | _ => False
  end.

(** Engines one inside the other.  The protected block of the first layer
    is [block]; the protected block of each further layer is the execution
    call of the layer before it. *)
Definition with_block (ts : try.Try) (block : Go unit) : try.Try :=
  try.mkTry (try.specificHandlers ts) (try.groupHandlers ts) (try.globalHandler ts)
            (try.fallbackHandler ts) (Some block) (try.filters ts).

Fixpoint nested (layers : list (try.Try * option (Go unit))) (block : Go unit) : Go unit :=
  match layers with
  | [] => block
  | (ts, finally) :: outer =>
      nested outer (try.as_block (try.Finally (with_block ts block) finally))
  end.

(** The filters of the engine, called with [e] from the store [s], all
    return true, and [s'] is the store the last of them leaves. *)
Definition filters_pass (ts : try.Try) (e : Error.t) (s s' : Store) : Prop :=
  try.as_block (try.applyFilters 0 (try.filters ts) e) s = (Returned true, s').

(** The finalizer, called from the store [s], returns and leaves [s']; with
    no finalizer the store stays. *)
Definition finally_leaves (finally : option (Go unit)) (s s' : Store) : Prop :=
  match finally with
  | Some f => f s = (Returned tt, s')
  | None => s' = s
  end.

(** The way of [e] out of engines one inside the other, from the store [s]
    in which the innermost one has it in hand to the store [s'] the caller
    of the outermost one gets: each engine has no handler to call for [e],
    its filters return true when they are called on the way, and so does its
    finalizer return. *)
Inductive passes (e : Error.t)
    : list (try.Try * option (Go unit)) -> Store -> Store -> Prop :=
| passes_nil (s : Store) : passes e [] s s
| passes_layer (ts : try.Try) (finally : option (Go unit))
    (outer : list (try.Try * option (Go unit))) (s s2 s3 s' : Store) :
    resolution_order ts e = [] ->
    filters_pass ts e s s2 ->
    finally_leaves finally s2 s3 ->
    passes e outer s3 s' ->
    passes e ((ts, finally) :: outer) s s'.

(** What a chain of registration calls on a new engine leaves in each
    field, read off the calls: the handler of the last [Index] call for the
    code, the handlers of the [Group] calls that name the code in the order
    of the calls, the handler of the last [Catch] and of the last [Unknown]
    call, the filters of the [Filter] calls in the order of the calls.  Calls
    with a nil argument or a reserved code count for nothing. *)
Definition registered_specific (index : Z) (rs : list Registration)
    : option try.ErrorHandler :=
  foldl (fun acc r =>
           match r with
           | RIndex i (Some h) =>
               if decide (i = index /\ ~ reserved index) then Some h else acc
           | _ => acc
           end) None rs.

Definition registered_group (index : Z) (rs : list Registration)
    : list try.ErrorHandler :=
  flat_map (fun r =>
              match r with
              | RGroup group (Some h) =>
                  if decide (reserved index) then []
                  else replicate (occurrences index group) h
              | _ => []
              end) rs.

Definition registered_global (rs : list Registration) : option try.ErrorHandler :=
  foldl (fun acc r => match r with RCatch (Some h) => Some h | _ => acc end) None rs.

Definition registered_fallback (rs : list Registration) : option try.ErrorHandler :=
  foldl (fun acc r => match r with RUnknown (Some h) => Some h | _ => acc end) None rs.

Definition registered_filters (rs : list Registration) : list try.FilterFunc :=
  omap (fun r => match r with RFilter (Some f) => Some f | _ => None end) rs.

(** A call that resolution of [e] by the engine [ts] may make: a filter, the
    specific handler registered for the code of [e], a group handler of that
    code, the fallback handler when no specific handler is registered for
    the code, the global handler; always with [e] as argument. *)
Definition call_for (ts : try.Try) (e : Error.t) (ev : try.Event) : Prop :=
  match ev with
  | try.EvCall (try.SFilter _) e' => e' = e
  | try.EvCall (try.SSpecific c) e' =>
      e' = e /\ c = Error.Index e /\ is_Some (try.specificHandlers ts !! c)
  | try.EvCall (try.SGroup c _) e' =>
      e' = e /\ c = Error.Index e /\ is_Some (try.groupHandlers ts !! c)
  | try.EvCall try.SFallback e' =>
      e' = e /\ try.specificHandlers ts !! Error.Index e = None
             /\ is_Some (try.fallbackHandler ts)
  | try.EvCall try.SGlobal e' => e' = e /\ is_Some (try.globalHandler ts)
  | _ => False
  end.

(** No group entry is an empty list. *)
Definition group_entries_nonempty (t : try.Try) : Prop :=
  forall index, try.groupHandlers t !! index <> Some [].

(** Callbacks that return, whatever the error and the store. *)
Definition filters_return (ts : try.Try) : Prop :=
  Forall (fun f : try.FilterFunc => forall e s, exists b s', f e s = (Returned b, s'))
         (try.filters ts).

Definition handlers_return (ts : try.Try) : Prop :=
  forall e, Forall (fun sh => handler_returns (snd sh) e) (resolution_order ts e).

End Vocabulary.

(** ** The scenarios of the tests *)

(** A runtime to run the scenarios in: the rest of the program state is the
    list of the flags the callbacks of a test have set, in the order they set
    them. *)
Definition test_runtime : Runtime := {|
  Env := list string;
  stack_text := fun _ => "goroutine 1 [running]:"%string;
  Sprint_v := fun v =>
    match v with
    | VError e => Error.Message e
    | VPass => "{}"%string
    | VInt z => pretty z
    | VString s => s
    | VBool b => if b then "true"%string else "false"%string
    | VErr text => text
    | VOther _ text => text
    end;
  Sprint_T := fun v =>
    match v with
    | VError _ => "throw.Error"%string
    | VPass => "throw.Pass"%string
    | VInt _ => "int"%string
    | VString _ => "string"%string
    | VBool _ => "bool"%string
    | VErr _ => "*errors.errorString"%string
    | VOther type_name _ => type_name
    end
|}.

Section Scenarios.
#[local] Existing Instance test_runtime.

(** [flag = true] *)
Definition set_flag (flag : string) : Go unit :=
  fun s => (Returned tt, mkStore (heap s) (env s ++ [flag])).

Definition handler (flag : string) : try.ErrorHandler := fun _ => set_flag flag.

Definition start : Store := mkStore ∅ [].
Definition start_machine : try.Machine := try.mkMachine start [].

(** The engine sits at some address. *)
Definition here : try.ptr := 1%positive.

(** A chain of registrations on a new engine, then [Finally(finally)] from
    the start store: how the call ends and the flags that are set then. *)
Definition run_test (tryHandler : Go unit) (rs : list Registration)
    (finally : option (Go unit)) : Outcome unit * list string :=
  let (r, m) := try.Finally (snd (chain here rs (try.Run (Some tryHandler)))) finally
                  start_machine in
  (r, env (try.store m)).

(** The error [throw.Index(index, message)] raises in these scenarios. *)
Definition raised (index : Z) (message : string) : Error.t :=
  Error.mk index message "goroutine 1 [running]:" None.

(** [Run(func() { throw.Index(404, "not found") }).Index(404, ..)
      .Group(Group{400, 401, 403, 404}, ..).Unknown(..).Catch(..)] *)
Definition not_found_engine : try.Try :=
  snd (chain here
         [RIndex 404 (Some (handler "index"));
          RGroup [400; 401; 403; 404] (Some (handler "group"));
          RUnknown (Some (handler "unknown"));
          RCatch (Some (handler "catch"))]
         (try.Run (Some (throw.Index 404 "not found")))).

(** The filters of [TestTryFilter] and [TestTryMultipleFilters]. *)
Definition only_4xx : try.FilterFunc :=
  fun err =>
    (set_flag "filterCalled";;
     ret (bool_decide (400 <= Error.Index err) && bool_decide (Error.Index err < 500)))%go.

Definition from_400 : try.FilterFunc :=
  fun err => (set_flag "filter1Called";; ret (bool_decide (400 <= Error.Index err)))%go.

Definition has_userID : try.FilterFunc :=
  fun err =>
    (set_flag "filter2Called";;
     fun s => (Returned (snd (throw.GetContext err "userID" (heap s))), s))%go.

Definition never_reached : try.FilterFunc :=
  fun err => (set_flag "filter3Called";; ret true)%go.

(** [TestTryFilter]:
    [Run(func() { throw.Index(500, "server error") }).Filter(..).Index(500, ..)] *)
Definition server_error_engine : try.Try :=
  snd (chain here
         [RFilter (Some only_4xx); RIndex 500 (Some (handler "handlerCalled"))]
         (try.Run (Some (throw.Index 500 "server error")))).

(** After [TestTryMultipleFilters], with an error that has no context and a
    third filter:
    [Run(func() { throw.Index(403, "forbidden") }).Filter(..).Filter(..).Filter(..)
       .Index(403, ..)] *)
Definition forbidden_engine : try.Try :=
  snd (chain here
         [RFilter (Some from_400); RFilter (Some has_userID); RFilter (Some never_reached);
          RIndex 403 (Some (handler "handlerCalled"))]
         (try.Run (Some (throw.Index 403 "forbidden")))).

(** [TestTryMultipleFilters] with the handler registered for another code,
    so that nobody handles 403, and with a finalizer:
    [Run(func() { throw.IndexWithContext(403, "forbidden", "userID", 123) })
       .Filter(..).Filter(..).Index(404, ..).Finally(..)];
    around its execution call an engine with a filter and a handler for
    500, run with [Do()]. *)
Definition forbidden_block : Go unit :=
  throw.IndexWithContext 403 "forbidden" "userID" (VInt 123).

Definition unhandled_engine : try.Try :=
  snd (chain here
         [RFilter (Some from_400); RFilter (Some has_userID);
          RIndex 404 (Some (handler "handlerCalled"))]
         (try.Run (Some forbidden_block))).

Definition unhandled_layer : try.Try * option (Go unit) :=
  (unhandled_engine, Some (set_flag "finallyCalled")).

Definition outer_layer : try.Try * option (Go unit) :=
  (snd (chain here
          [RFilter (Some from_400); RIndex 500 (Some (handler "outerCalled"))]
          (try.Run None)),
   None).

(** What the block raises from the start store, and the store it leaves. *)
Definition forbidden_error : Error.t :=
  Error.mk 403 "forbidden" "goroutine 1 [running]:" (Some 1%positive).

Definition forbidden_store (flags : list string) : Store :=
  mkStore {[1%positive := {["userID"%string := VInt 123]}]} flags.

(** [Run(func() { panic(throw.Pass{}) }).Catch(..)] *)
Definition pass_engine : try.Try :=
  snd (chain here [RCatch (Some (handler "catch"))] (try.Run (Some (panic VPass)))).

(** [Run(func() { panic("oops") }).Unknown(..).Catch(..)] *)
Definition oops_engine : try.Try :=
  snd (chain here
         [RUnknown (Some (handler "unknown")); RCatch (Some (handler "catch"))]
         (try.Run (Some (panic (VString "oops"))))).

(** What ["oops"] is normalized to in the start store. *)
Definition oops_error : Error.t :=
  Error.mk throw.FallbackErrorIndex "unexpected panic: oops (type: string)"
           "goroutine 1 [running]:" (Some 1%positive).

(** Callbacks that panic. *)
Definition failing_handler : try.ErrorHandler :=
  fun _ => panic (VString "handler failed").

Definition failing_filter : try.FilterFunc :=
  fun _ => panic (VString "filter failed").

(** [Run(func() { throw.Index(404, "not found") }).Index(404, <panics>).Catch(..)] *)
Definition failing_handler_engine : try.Try :=
  snd (chain here
         [RIndex 404 (Some failing_handler); RCatch (Some (handler "globalCaught"))]
         (try.Run (Some (throw.Index 404 "not found")))).

(** [Run(func() { throw.Index(403, "forbidden") }).Filter(..).Filter(<panics>)
      .Filter(..).Index(403, ..)] *)
Definition failing_filter_engine : try.Try :=
  snd (chain here
         [RFilter (Some from_400); RFilter (Some failing_filter);
          RFilter (Some never_reached); RIndex 403 (Some (handler "handlerCalled"))]
         (try.Run (Some (throw.Index 403 "forbidden")))).

End Scenarios.

(** ** Package throw: properties *)

Section ThrowProperties.
Context `{Runtime}.

Lemma GetPanicStack_returns (s : Store) :
  exists stack, throw.GetPanicStack s = (Returned stack, s).
Proof.
  unfold throw.GetPanicStack.
  destruct (_ =? _)%nat; eauto.
Qed.

Lemma Index_panics (index : Z) (message : string) (s : Store) :
  exists stack,
    throw.Index index message s
    = (Panicked (VError (Error.mk index message stack None)), s).
Proof.
  destruct (GetPanicStack_returns s) as [stack Hs].
  exists stack. unfold throw.Index, bind. now rewrite Hs.
Qed.

(** C10. [ValueErr(v, err)] panics exactly when [err] is not nil and
    otherwise returns [v]; [Err(err)] panics exactly when [err] is not nil;
    the payload is a [throw.Error] with index [FallbackErrorIndex] and
    message [err.Error()], and the store is left as it was. *)
Theorem ValueErr_Err_raise_iff_error {T : Type} (v : T) (err : error) (s : Store) :
  (raises (throw.ValueErr v err) s <-> err <> nil_error) /\
  (raises (throw.Err err) s <-> err <> nil_error) /\
  match err with
  | nil_error =>
      throw.ValueErr v err s = (Returned v, s) /\
      throw.Err err s = (Returned tt, s)
  | an_error text =>
      exists e,
        throw.ValueErr v err s = (Panicked (VError e), s) /\
        throw.Err err s = (Panicked (VError e), s) /\
        Error.Index e = throw.FallbackErrorIndex /\
        Error.Message e = text
  end.
Proof.
  destruct err as [|text].
  - unfold raises; cbn. repeat split; try congruence.
    + intros [p Hp]. discriminate Hp.
    + intros [p Hp]. discriminate Hp.
  - destruct (Index_panics throw.FallbackErrorIndex text s) as [stack Hi].
    assert (Hv : throw.ValueErr v (an_error text) s
                 = (Panicked (VError (Error.mk throw.FallbackErrorIndex text stack None)), s)).
    { unfold throw.ValueErr, bind. now rewrite Hi. }
    unfold raises. cbn [throw.Err]. rewrite Hv, Hi. cbn.
    repeat split; try discriminate; eauto.
Qed.

(** The context map is found behind the location, whoever holds it. *)
Lemma GetContext_insert_eq (e : Error.t) (l : loc) (key : string) (value : any)
    (m : gmap string any) (h : gmap loc (gmap string any)) :
  Error.Context e = Some l ->
  throw.GetContext e key (<[l := <[key := value]> m]> h) = (Some value, true).
Proof.
  intros He. unfold throw.GetContext, throw.map_at.
  now rewrite He, lookup_insert_eq; cbn; rewrite lookup_insert_eq.
Qed.

Lemma new_loc_fresh (h : gmap loc (gmap string any)) : h !! throw.new_loc h = None.
Proof.
  unfold throw.new_loc. apply not_elem_of_dom, is_fresh.
Qed.

(** C4, as the code has it.  [WithContext] returns an error with the fields
    of [e] whose context maps [key] to [value] and every other key as
    before.  With a nil context a map is made for the returned value: no
    existing map changes and [e] still reads as before.  With a context
    already there the returned value is [e] itself, the entry is written
    into the map [e] refers to, and [e] reads it too. *)
Theorem WithContext_sets_entry (e : Error.t) (key : string) (value : any)
    (h : gmap loc (gmap string any)) :
  let e' := fst (throw.WithContext e key value h) in
  let h' := snd (throw.WithContext e key value h) in
  Error.Index e' = Error.Index e /\
  Error.Message e' = Error.Message e /\
  Error.Stack e' = Error.Stack e /\
  throw.GetContext e' key h' = (Some value, true) /\
  (forall k, k <> key -> throw.GetContext e' k h' = throw.GetContext e k h) /\
  match Error.Context e with
  | None =>
      (exists l, Error.Context e' = Some l /\ h !! l = None) /\
      (forall l, is_Some (h !! l) -> h' !! l = h !! l) /\
      (forall k, throw.GetContext e k h' = throw.GetContext e k h)
  | Some l =>
      e' = e /\
      (forall l', l' <> l -> h' !! l' = h !! l') /\
      throw.GetContext e key h' = (Some value, true)
  end.
Proof.
  unfold throw.WithContext.
  destruct (Error.Context e) as [l|] eqn:Hc; cbn.
  - repeat split; auto.
    + now apply GetContext_insert_eq.
    + intros k Hk. unfold throw.GetContext. rewrite Hc.
      unfold throw.map_at at 1. rewrite lookup_insert_eq. cbn.
      now rewrite lookup_insert_ne by congruence.
    + intros l' Hl. now rewrite lookup_insert_ne by congruence.
    + now apply GetContext_insert_eq.
  - pose proof (new_loc_fresh h) as Hfresh.
    repeat split.
    + unfold throw.GetContext, throw.map_at; cbn.
      now rewrite lookup_insert_eq; cbn; rewrite lookup_singleton_eq.
    + intros k Hk. unfold throw.GetContext, throw.map_at; cbn.
      rewrite Hc, lookup_insert_eq; cbn.
      now rewrite lookup_singleton_ne by congruence.
    + eauto.
    + intros l [m Hl]. rewrite lookup_insert_ne; [done|].
      intros <-. congruence.
    + intros k. unfold throw.GetContext. now rewrite Hc.
Qed.

(** C4, as the specification words it, fails: in [TestWithContextMethod]
    the second [WithContext] is made on an error that has a map, and after it
    that error reads "key2" where it read nothing before. *)
Lemma WithContext_writes_shared_map :
  ~ WithContext_keeps_receiver (fst server_error_1) "key2" (VInt 2) (snd server_error_1).
Proof.
  intros Hkeep. specialize (Hkeep "key2"%string).
  vm_compute in Hkeep. discriminate Hkeep.
Qed.

End ThrowProperties.

(** ** Package try: registration *)

Section Registration.
Context `{Runtime}.

Lemma code_guard_spec (index : Z) :
  bool_decide (index <> 0) && bool_decide (index <> throw.FallbackErrorIndex) = true
  <-> ~ reserved index.
Proof.
  unfold reserved. rewrite andb_true_iff, !bool_decide_eq_true. tauto.
Qed.

Lemma code_guard_reserved (index : Z) :
  reserved index ->
  bool_decide (index <> 0) && bool_decide (index <> throw.FallbackErrorIndex) = false.
Proof.
  intros Hr. apply not_true_is_false. rewrite code_guard_spec. tauto.
Qed.

Lemma occurrences_cons_eq (index : Z) (group : list Z) :
  occurrences index (index :: group) = S (occurrences index group).
Proof. unfold occurrences. now rewrite filter_cons_True. Qed.

Lemma occurrences_cons_ne (index i : Z) (group : list Z) :
  i <> index -> occurrences index (i :: group) = occurrences index group.
Proof. intros Hne. unfold occurrences. now rewrite filter_cons_False. Qed.

Lemma occurrences_zero (index : Z) (group : list Z) :
  occurrences index group = 0%nat <-> index ∉ group.
Proof.
  induction group as [|i group IH].
  - split; [intros _; apply not_elem_of_nil | reflexivity].
  - rewrite not_elem_of_cons. destruct (decide (i = index)) as [->|Hne].
    + rewrite occurrences_cons_eq. split; [discriminate | tauto].
    + rewrite occurrences_cons_ne by done. rewrite IH. split; [split; [congruence | tauto] | tauto].
Qed.

(** What the loop of [Group] leaves under a code: nothing new for a reserved
    code or a code that is not in the group, and otherwise the handler once
    for each time the code stands in the group, after what was there. *)
Lemma Group_loop_lookup (group : list Z) (h : try.ErrorHandler)
    (g : gmap Z (list try.ErrorHandler)) (index : Z) :
  try.Group_loop group h g !! index =
    if decide (reserved index) then g !! index
    else match occurrences index group with
         | O => g !! index
         | S n => Some (default [] (g !! index) ++ replicate (S n) h)
         end.
Proof.
  revert g. induction group as [|i group IH]; intros g.
  - cbn. now destruct (decide _).
  - cbn [try.Group_loop].
    destruct (bool_decide (i <> 0) && bool_decide (i <> throw.FallbackErrorIndex)) eqn:Hg.
    + apply code_guard_spec in Hg. rewrite IH. clear IH.
      destruct (decide (reserved index)) as [Hr|Hr].
      * rewrite lookup_insert_ne; [done | congruence].
      * destruct (decide (i = index)) as [->|Hne].
        -- rewrite occurrences_cons_eq, lookup_insert_eq. cbn [default].
           destruct (occurrences index group) as [|n]; [done |].
           f_equal. change (replicate (S (S n)) h) with ([h] ++ replicate (S n) h).
           now rewrite app_assoc.
        -- rewrite occurrences_cons_ne, lookup_insert_ne by done. done.
    + rewrite IH. clear IH.
      destruct (decide (reserved index)) as [Hr|Hr]; [done |].
      rewrite occurrences_cons_ne; [done |].
      intros ->. apply Hr. apply dec_stable. intros Hn.
      apply code_guard_spec in Hn. congruence.
Qed.

Lemma register_returns_receiver (ts : try.ptr) (r : Registration) (t : try.Try) :
  fst (register ts r t) = ts.
Proof.
  destruct r as [index [h|] | [h|] | [h|] | group [h|] | [f|]];
    cbn [register]; try done.
  - unfold try.Index. now destruct (_ && _).
  - unfold try.Group. now destruct (0 <? length group)%nat.
Qed.

Lemma chain_returns_receiver (ts : try.ptr) (rs : list Registration) (t : try.Try) :
  fst (chain ts rs t) = ts.
Proof.
  revert t. induction rs as [|r rs IH]; intros t; cbn; [done |].
  pose proof (register_returns_receiver ts r t) as Hr.
  destruct (register ts r t) as [ts' t']. cbn in Hr. subst ts'. apply IH.
Qed.

Lemma register_no_reserved_entry (ts : try.ptr) (r : Registration) (t : try.Try) :
  no_reserved_entry t -> no_reserved_entry (snd (register ts r t)).
Proof.
  intros Ht index Hr. destruct (Ht index Hr) as [Hs Hg].
  destruct r as [i [h|] | [h|] | [h|] | group [h|] | [f|]];
    cbn [register]; try done.
  - unfold try.Index.
    destruct (bool_decide (i <> 0) && bool_decide (i <> throw.FallbackErrorIndex)) eqn:Hi;
      cbn; [| done].
    apply code_guard_spec in Hi. split; [| done].
    rewrite lookup_insert_ne; [done | congruence].
  - unfold try.Group. destruct (0 <? length group)%nat; cbn; [| done].
    split; [done |]. rewrite Group_loop_lookup. now rewrite decide_True.
Qed.

Lemma chain_no_reserved_entry (ts : try.ptr) (rs : list Registration) (t : try.Try) :
  no_reserved_entry t -> no_reserved_entry (snd (chain ts rs t)).
Proof.
  revert ts t. induction rs as [|r rs IH]; intros ts t Ht; cbn; [done |].
  pose proof (register_no_reserved_entry ts r t Ht) as Hr.
  destruct (register ts r t) as [ts' t']. now apply IH.
Qed.

Lemma Run_no_reserved_entry (tryHandler : option (Go unit)) :
  no_reserved_entry (try.Run tryHandler).
Proof. intros index _. cbn. now rewrite !lookup_empty. Qed.

(** C8. After any chain of registration calls on a new engine neither map
    has an entry for [0] or [FallbackErrorIndex], and the chain returns the
    pointer it was started on.  [Index] with a reserved code or a nil handler
    returns its receiver and leaves the engine as it was.  [Group] leaves the
    entries of reserved codes and of codes outside the group as they were,
    appends the handler to the entry of every other code of the group, once
    for each time the code stands in it, and touches no other field; with a
    nil handler or an empty group it leaves the engine as it was.  The other
    registration calls return their receiver too. *)
Theorem registrations_skip_reserved_codes (ts : try.ptr) :
  (forall tryHandler rs,
      fst (chain ts rs (try.Run tryHandler)) = ts /\
      no_reserved_entry (snd (chain ts rs (try.Run tryHandler)))) /\
  (forall index handler t,
      reserved index \/ handler = None -> try.Index ts index handler t = (ts, t)) /\
  (forall group h t,
      fst (try.Group ts group (Some h) t) = ts /\
      (forall index,
          try.groupHandlers (snd (try.Group ts group (Some h) t)) !! index =
            if decide (reserved index \/ index ∉ group)
            then try.groupHandlers t !! index
            else Some (default [] (try.groupHandlers t !! index)
                         ++ replicate (occurrences index group) h)) /\
      try.specificHandlers (snd (try.Group ts group (Some h) t)) = try.specificHandlers t /\
      try.globalHandler (snd (try.Group ts group (Some h) t)) = try.globalHandler t /\
      try.fallbackHandler (snd (try.Group ts group (Some h) t)) = try.fallbackHandler t /\
      try.tryFunc (snd (try.Group ts group (Some h) t)) = try.tryFunc t /\
      try.filters (snd (try.Group ts group (Some h) t)) = try.filters t) /\
  (forall group handler t,
      handler = None \/ group = [] -> try.Group ts group handler t = (ts, t)) /\
  (forall r t, fst (register ts r t) = ts).
Proof.
  split; [| split; [| split; [| split]]].
  - intros tryHandler rs. split.
    + apply chain_returns_receiver.
    + apply chain_no_reserved_entry, Run_no_reserved_entry.
  - intros index handler t [Hr | ->]; unfold try.Index.
    + rewrite code_guard_reserved by done. now destruct handler.
    + done.
  - intros group h t.
    assert (Hfields : forall (P : try.Try -> Prop),
               P t ->
               P (try.mkTry (try.specificHandlers t) (try.Group_loop group h (try.groupHandlers t))
                            (try.globalHandler t) (try.fallbackHandler t) (try.tryFunc t)
                            (try.filters t)) ->
               P (snd (try.Group ts group (Some h) t))).
    { intros P Ht Hm. unfold try.Group. now destruct (0 <? length group)%nat. }
    split; [| split; [| repeat split]].
    + unfold try.Group. now destruct (0 <? length group)%nat.
    + intros index. unfold try.Group.
      destruct group as [|i group]; cbn [length Nat.ltb Nat.leb snd try.groupHandlers].
      * rewrite decide_True; [done |]. right. apply not_elem_of_nil.
      * rewrite Group_loop_lookup.
        destruct (decide (reserved index)) as [Hr|Hr].
        -- rewrite decide_True; [done | tauto].
        -- destruct (occurrences index (i :: group)) as [|n] eqn:Hocc.
           ++ apply occurrences_zero in Hocc. rewrite decide_True; [done | tauto].
           ++ rewrite decide_False; [done |].
              intros [? | Hnotin]; [done |].
              apply occurrences_zero in Hnotin. congruence.
    + now apply (Hfields (fun t' => try.specificHandlers t' = try.specificHandlers t)).
    + now apply (Hfields (fun t' => try.globalHandler t' = try.globalHandler t)).
    + now apply (Hfields (fun t' => try.fallbackHandler t' = try.fallbackHandler t)).
    + now apply (Hfields (fun t' => try.tryFunc t' = try.tryFunc t)).
    + now apply (Hfields (fun t' => try.filters t' = try.filters t)).
  - intros group handler t [-> | ->]; unfold try.Group; [done |].
    now destruct handler.
  - apply register_returns_receiver.
Qed.

End Registration.

(** ** Package try: resolution *)

Section Resolution.
Context `{Runtime}.

Lemma invoke_all_app (l1 l2 : list (try.Slot * try.ErrorHandler)) (e : Error.t)
    (m : try.Machine) :
  invoke_all (l1 ++ l2) e m =
    match invoke_all l1 e m with
    | (Returned _, m') => invoke_all l2 e m'
    | (Panicked p, m') => (Panicked p, m')
    end.
Proof.
  revert m. induction l1 as [|[slot h] l1 IH]; intros m; [done |].
  cbn [invoke_all app]. unfold bind.
  destruct (try.invoke (try.EvCall slot e) (h e) m) as [[[]|p] m']; [apply IH | done].
Qed.

(** The loop over the group handlers calls them in the order of the list. *)
Lemma groupLoop_spec (i : nat) (handlers : list try.ErrorHandler) (e : Error.t)
    (handled : bool) (m : try.Machine) :
  try.groupLoop i handlers e handled m =
    and_then (invoke_all (group_slots (Error.Index e) i handlers) e m)
             (handled || some_handler (group_slots (Error.Index e) i handlers)).
Proof.
  revert i handled m. induction handlers as [|h handlers IH]; intros i handled m.
  - cbn. now rewrite orb_false_r.
  - cbn [try.groupLoop group_slots invoke_all some_handler]. unfold bind.
    destruct (try.invoke _ (h e) m) as [[[]|p] m']; [| done].
    rewrite IH. cbn [orb]. now rewrite orb_true_r.
Qed.

(** One step of a run of the engine: split a list of handlers, or look at
    how the next call ends. *)
Ltac exec_simpl :=
  cbn [fst snd negb app invoke_all some_handler and_then default from_option id
       group_slots orb];
  unfold bind, ret.

Ltac exec_step :=
  first
    [ rewrite invoke_all_app
    | rewrite groupLoop_spec
    | match goal with
      | E : try.invoke ?ev ?f ?m = _ |- context [try.invoke ?ev ?f ?m] => rewrite E
      | E : invoke_all ?l ?e ?m = _ |- context [invoke_all ?l ?e ?m] => rewrite E
      | |- context [try.invoke ?ev ?f ?m] =>
          destruct (try.invoke ev f m) as [[[]|?] ?] eqn:?
      | |- context [invoke_all (group_slots ?c ?i ?l) ?e ?m] =>
          destruct (invoke_all (group_slots c i l) e m) as [[[]|?] ?] eqn:?
      end ];
  exec_simpl.

(** Past the filters, [executeHandlers] calls the handlers of
    [resolution_order] one after the other, and reports as handled whether
    there was one to call. *)
Lemma executeHandlers_accepted (ts : try.Try) (e : Error.t) (m m1 : try.Machine) :
  try.applyFilters 0 (try.filters ts) e m = (Returned true, m1) ->
  try.executeHandlers ts e m =
    and_then (invoke_all (resolution_order ts e) e m1)
             (some_handler (resolution_order ts e), false).
Proof.
  intros Hf. unfold try.executeHandlers, resolution_order.
  unfold bind at 1. rewrite Hf. cbn [negb].
  destruct (try.specificHandlers ts !! Error.Index e) as [hs|];
    destruct (try.groupHandlers ts !! Error.Index e) as [hg|];
    destruct (try.fallbackHandler ts) as [hf|];
    destruct (try.globalHandler ts) as [hglob|];
    exec_simpl; repeat exec_step;
    rewrite ?orb_true_r, ?orb_false_r; try done;
    try (destruct hg; done).
Qed.


(** *** Filters *)

Lemma invoke_eq {A : Type} (ev : try.Event) (f : Go A) (m : try.Machine)
    (r : Outcome A) (s : Store) :
  f (try.store m) = (r, s) ->
  try.invoke ev f m = (r, try.mkMachine s (try.calls m ++ [ev])).
Proof. intros Hf. unfold try.invoke. now rewrite Hf. Qed.

Lemma filter_calls_S (i n : nat) (e : Error.t) :
  filter_calls i (S n) e = filter_calls i n e ++ [try.EvCall (try.SFilter (i + n)) e].
Proof. unfold filter_calls. now rewrite seq_S, map_app. Qed.

Lemma filter_calls_cons (i n : nat) (e : Error.t) :
  filter_calls i (S n) e = try.EvCall (try.SFilter i) e :: filter_calls (S i) n e.
Proof. reflexivity. Qed.

(** The filters of a list run from left to right: what comes after is
    reached only when all before accepted. *)
Lemma applyFilters_app (i : nat) (pre post : list try.FilterFunc) (e : Error.t)
    (m : try.Machine) :
  try.applyFilters i (pre ++ post) e m =
    match try.applyFilters i pre e m with
    | (Returned true, m1) => try.applyFilters (i + length pre) post e m1
    | other => other
    end.
Proof.
  revert i m. induction pre as [|f pre IH]; intros i m.
  - cbn. now rewrite Nat.add_0_r.
  - cbn [app try.applyFilters length]. unfold bind.
    destruct (try.invoke _ (f e) m) as [[[|]|p] m1]; cbn [negb]; [| done | done].
    rewrite IH. now rewrite Nat.add_succ_r.
Qed.

(** When all filters accepted, each was called once, in the order of the
    list. *)
Lemma applyFilters_accepted_calls (i : nat) (fs : list try.FilterFunc) (e : Error.t)
    (m m1 : try.Machine) :
  try.applyFilters i fs e m = (Returned true, m1) ->
  try.calls m1 = try.calls m ++ filter_calls i (length fs) e.
Proof.
  revert i m. induction fs as [|f fs IH]; intros i m.
  - cbn. intros [= <-]. now rewrite app_nil_r.
  - cbn [try.applyFilters length]. unfold bind, try.invoke.
    destruct (f e (try.store m)) as [[[|]|p] s]; cbn [negb]; [| done | done].
    intros Hrest. apply IH in Hrest. rewrite Hrest. cbn [try.calls].
    now rewrite filter_calls_cons, <- app_assoc.
Qed.

(** What the filters do to the store, and how they end, does not depend on
    the calls recorded before. *)
Lemma applyFilters_store (i : nat) (fs : list try.FilterFunc) (e : Error.t)
    (m : try.Machine) (c : list try.Event) :
  fst (try.applyFilters i fs e (try.mkMachine (try.store m) c))
    = fst (try.applyFilters i fs e m) /\
  try.store (snd (try.applyFilters i fs e (try.mkMachine (try.store m) c)))
    = try.store (snd (try.applyFilters i fs e m)).
Proof.
  revert i m c. induction fs as [|f fs IH]; intros i m c.
  - done.
  - cbn [try.applyFilters]. unfold bind, try.invoke. cbn [try.store try.calls].
    destruct (f e (try.store m)) as [[[|]|p] s]; cbn [negb]; [| done | done].
    exact (IH (S i) (try.mkMachine s (try.calls m ++ [try.EvCall (try.SFilter i) e]))
              (c ++ [try.EvCall (try.SFilter i) e])).
Qed.

(** Whatever the filters do, they add calls of filters only. *)
Lemma applyFilters_calls (i : nat) (fs : list try.FilterFunc) (e : Error.t)
    (m m1 : try.Machine) (r : Outcome bool) :
  try.applyFilters i fs e m = (r, m1) ->
  exists n, (n <= length fs)%nat /\ try.calls m1 = try.calls m ++ filter_calls i n e.
Proof.
  revert i m. induction fs as [|f fs IH]; intros i m.
  - cbn. intros [= <- <-]. exists 0%nat. split; [done |]. now rewrite app_nil_r.
  - cbn [try.applyFilters length]. unfold bind, try.invoke.
    destruct (f e (try.store m)) as [[[|]|p] s]; cbn [negb].
    + intros Hrest. apply IH in Hrest as (n & Hn & Hcalls).
      exists (S n). split; [lia |]. rewrite Hcalls. cbn [try.calls].
      now rewrite filter_calls_cons, <- app_assoc.
    + intros [= <- <-]. exists 1%nat. split; [lia | done].
    + intros [= <- <-]. exists 1%nat. split; [lia | done].
Qed.

Lemma executeHandlers_rejected (ts : try.Try) (e : Error.t) (m m1 : try.Machine) :
  try.applyFilters 0 (try.filters ts) e m = (Returned false, m1) ->
  try.executeHandlers ts e m = (Returned (false, true), m1).
Proof.
  intros Hf. unfold try.executeHandlers. unfold bind at 1. now rewrite Hf.
Qed.

(** C9. When the filters before [f] accept the error and [f] rejects it,
    resolution ends there: the filters up to and with [f] have been called,
    once each and in the order of the list, no filter after [f] has been
    called, and the store is the one [f] left.  When all filters accept, all
    have been called in the order of the list.  The order of the list is the
    order of registration: [Filter] puts a filter after those already
    there. *)
Theorem filters_run_in_registration_order (ts : try.Try) (e : Error.t) (m : try.Machine) :
  (forall pre f post m1 s2,
      try.filters ts = pre ++ f :: post ->
      try.applyFilters 0 pre e m = (Returned true, m1) ->
      f e (try.store m1) = (Returned false, s2) ->
      try.executeHandlers ts e m =
        (Returned (false, true),
         try.mkMachine s2 (try.calls m ++ filter_calls 0 (S (length pre)) e))) /\
  (forall m1,
      try.applyFilters 0 (try.filters ts) e m = (Returned true, m1) ->
      try.calls m1 = try.calls m ++ filter_calls 0 (length (try.filters ts)) e) /\
  (forall p g, try.filters (snd (try.Filter p (Some g) ts)) = try.filters ts ++ [g]).
Proof.
  split; [| split].
  - intros pre f post m1 s2 Hfs Hpre Hf.
    apply executeHandlers_rejected.
    rewrite Hfs, applyFilters_app, Hpre.
    cbn [try.applyFilters]. unfold bind.
    rewrite (invoke_eq _ _ _ _ _ Hf). cbn [negb]. unfold ret.
    rewrite (applyFilters_accepted_calls _ _ _ _ _ Hpre).
    now rewrite filter_calls_S, <- app_assoc.
  - intros m1. apply applyFilters_accepted_calls.
  - reflexivity.
Qed.


(** *** Handlers *)

Lemma handler_calls_app (l1 l2 : list (try.Slot * try.ErrorHandler)) (e : Error.t) :
  handler_calls (l1 ++ l2) e = handler_calls l1 e ++ handler_calls l2 e.
Proof. apply map_app. Qed.

(** Handlers that return are all called, in the order of the list. *)
Lemma invoke_all_returns (hs : list (try.Slot * try.ErrorHandler)) (e : Error.t)
    (m : try.Machine) :
  Forall (fun sh => handler_returns (snd sh) e) hs ->
  exists s, invoke_all hs e m
            = (Returned tt, try.mkMachine s (try.calls m ++ handler_calls hs e)).
Proof.
  intros Hhs. revert m. induction Hhs as [|[slot h] hs Hh _ IH]; intros m.
  - exists (try.store m). cbn. rewrite app_nil_r. now destruct m.
  - cbn [invoke_all]. unfold bind.
    destruct (Hh (try.store m)) as [s1 Hs1]. cbn [snd] in Hs1.
    rewrite (invoke_eq _ _ _ _ _ Hs1).
    destruct (IH (try.mkMachine s1 (try.calls m ++ [try.EvCall slot e]))) as [s2 Hs2].
    exists s2. rewrite Hs2. cbn [try.calls handler_calls map fst].
    now rewrite <- app_assoc.
Qed.

(** In any case the calls made are those of a front part of the list: a
    handler is called only after those before it returned. *)
Lemma invoke_all_calls (hs : list (try.Slot * try.ErrorHandler)) (e : Error.t)
    (m m' : try.Machine) (r : Outcome unit) :
  invoke_all hs e m = (r, m') ->
  exists n, try.calls m' = try.calls m ++ handler_calls (take n hs) e.
Proof.
  revert m. induction hs as [|[slot h] hs IH]; intros m.
  - cbn. intros [= <- <-]. exists 0%nat. now rewrite app_nil_r.
  - cbn [invoke_all]. unfold bind, try.invoke.
    destruct (h e (try.store m)) as [[[]|p] s].
    + intros Hrest. apply IH in Hrest as [n Hn]. exists (S n).
      rewrite Hn. cbn [try.calls take handler_calls map fst].
      now rewrite <- app_assoc.
    + intros [= <- <-]. exists 1%nat. cbn [try.calls take handler_calls map fst].
      now destruct hs.
Qed.

Lemma Forall_callback_filter_calls (i n : nat) (e : Error.t) :
  Forall (callback_call e) (filter_calls i n e).
Proof. apply Forall_map, Forall_forall. intros j _. now eexists. Qed.

Lemma Forall_callback_handler_calls (hs : list (try.Slot * try.ErrorHandler)) (e : Error.t) :
  Forall (callback_call e) (handler_calls hs e).
Proof. apply Forall_map, Forall_forall. intros sh _. now eexists. Qed.

(** Resolution calls filters and handlers, with the error it was given, and
    nothing else. *)
Lemma executeHandlers_calls (ts : try.Try) (e : Error.t) (m m' : try.Machine)
    (r : Outcome (bool * bool)) :
  try.executeHandlers ts e m = (r, m') ->
  exists new, try.calls m' = try.calls m ++ new /\ Forall (callback_call e) new.
Proof.
  destruct (try.applyFilters 0 (try.filters ts) e m) as [[[|]|p] m1] eqn:Hf.
  - rewrite (executeHandlers_accepted _ _ _ _ Hf).
    apply applyFilters_accepted_calls in Hf.
    destruct (invoke_all (resolution_order ts e) e m1) as [r1 m2] eqn:Hh.
    apply invoke_all_calls in Hh as [n Hn].
    intros Hr.
    assert (m' = m2) as -> by (destruct r1; cbn in Hr; congruence).
    eexists. split.
    + rewrite Hn, Hf, <- app_assoc. reflexivity.
    + apply Forall_app. split;
        [apply Forall_callback_filter_calls | apply Forall_callback_handler_calls].
  - rewrite (executeHandlers_rejected _ _ _ _ Hf). intros [= <- <-].
    apply applyFilters_calls in Hf as (n & _ & Hn).
    eexists. split; [exact Hn | apply Forall_callback_filter_calls].
  - unfold try.executeHandlers. unfold bind at 1. rewrite Hf. intros [= <- <-].
    apply applyFilters_calls in Hf as (n & _ & Hn).
    eexists. split; [exact Hn | apply Forall_callback_filter_calls].
Qed.

(** C1. For an error that every filter accepted, [executeHandlers] is the
    run of the handlers in the order of the specification: the specific
    handler of the code of the error if there is one, then the group handlers
    of the code in the order they were registered, then the fallback handler
    if there is one and no specific handler, then the global handler if there
    is one; each is called with the error, on the store the one before left,
    and the result is handled exactly when there was a handler to call.  When
    these handlers return, every one of them is called, once, in that order,
    the global handler last. *)
Theorem handlers_run_in_resolution_order (ts : try.Try) (e : Error.t)
    (m m1 : try.Machine) :
  try.applyFilters 0 (try.filters ts) e m = (Returned true, m1) ->
  try.executeHandlers ts e m
    = and_then (invoke_all (resolution_order ts e) e m1)
               (some_handler (resolution_order ts e), false) /\
  (Forall (fun sh => handler_returns (snd sh) e) (resolution_order ts e) ->
   exists m2,
     try.executeHandlers ts e m
       = (Returned (some_handler (resolution_order ts e), false), m2) /\
     try.calls m2 = try.calls m1 ++ handler_calls (resolution_order ts e) e).
Proof.
  intros Hf.
  pose proof (executeHandlers_accepted _ _ _ _ Hf) as He.
  split; [exact He |].
  intros Hhs.
  destruct (invoke_all_returns _ e m1 Hhs) as [s Hs].
  rewrite He, Hs. eexists. split; reflexivity.
Qed.

End Resolution.

(** ** Package try: execution *)

Section Execution.
Context `{Runtime}.

Lemma normalizeError_classified (e : Error.t) (s : Store) :
  try.normalizeError (VError e) s = (Returned e, s).
Proof. reflexivity. Qed.

Lemma normalizeError_unclassified (p : any) (s : Store) :
  unclassified p ->
  exists stack,
    throw.GetPanicStack s = (Returned stack, s) /\
    try.normalizeError p s =
      (Returned (Error.mk throw.FallbackErrorIndex
                   ("unexpected panic: " ++ Sprint_v p ++ " (type: " ++ Sprint_T p ++ ")")
                   stack (Some (throw.new_loc (heap s)))),
       mkStore (<[throw.new_loc (heap s) := ∅]> (heap s)) (env s)).
Proof.
  intros Hp. destruct (GetPanicStack_returns s) as [stack Hs].
  exists stack. split; [exact Hs |].
  destruct p; try (now exfalso; eapply Hp);
    cbn [try.normalizeError]; unfold bind; now rewrite Hs.
Qed.

Lemma normalizeError_returns (p : any) (s : Store) :
  exists e s', try.normalizeError p s = (Returned e, s').
Proof.
  destruct (GetPanicStack_returns s) as [stack Hs].
  destruct p; cbn [try.normalizeError]; unfold bind, ret; rewrite ?Hs; eauto.
Qed.

Lemma call_tryFunc_calls (ts : try.Try) (m m1 : try.Machine) (r : Outcome unit) :
  try.call_tryFunc ts m = (r, m1) ->
  exists new, try.calls m1 = try.calls m ++ new /\ (new = [try.EvTry] \/ new = []).
Proof.
  unfold try.call_tryFunc. destruct (try.tryFunc ts) as [f|].
  - unfold try.invoke. destruct (f (try.store m)) as [r' s].
    intros [= <- <-]. eauto.
  - intros [= <- <-]. exists []. now rewrite app_nil_r; auto.
Qed.

Lemma deferred_finally_calls (finally : option (Go unit)) (r r' : Outcome unit)
    (m m' : try.Machine) :
  try.deferred_finally finally r m = (r', m') ->
  try.calls m' = try.calls m ++ finally_calls finally.
Proof.
  destruct finally as [f|]; cbn [try.deferred_finally finally_calls].
  - unfold try.invoke. destruct (f (try.store m)) as [[[]|p] s]; now intros [= <- <-].
  - intros [= <- <-]. now rewrite app_nil_r.
Qed.

(** A finalizer that returns leaves the outcome it was handed. *)
Lemma deferred_finally_returns (finally : option (Go unit)) (r : Outcome unit)
    (m : try.Machine) :
  finally_returns finally ->
  fst (try.deferred_finally finally r m) = r.
Proof.
  destruct finally as [f|]; cbn [try.deferred_finally finally_returns]; [| done].
  intros Hf. destruct (Hf (try.store m)) as [s Hs].
  now rewrite (invoke_eq _ _ _ _ _ Hs).
Qed.

Lemma recovered_calls (ts : try.Try) (r : Outcome unit) (m m' : try.Machine)
    (r' : Outcome unit) :
  try.recovered ts r m = (r', m') ->
  exists new, try.calls m' = try.calls m ++ new /\
              Forall (fun ev => exists slot e, ev = try.EvCall slot e) new.
Proof.
  destruct r as [[]|p]; cbn [try.recovered];
    [intros [= <- <-]; exists []; now rewrite app_nil_r |].
  assert (Hgo :
    (do err <- try.lift (try.normalizeError p);
     do hf <- try.executeHandlers ts err;
     if negb (fst hf) && negb (snd hf) then panic (VError err) else ret tt)%go m
    = (r', m') ->
    exists new, try.calls m' = try.calls m ++ new /\
                Forall (fun ev => exists slot e, ev = try.EvCall slot e) new).
  { unfold bind at 1, try.lift.
    destruct (normalizeError_returns p (try.store m)) as (e & s & Hn). rewrite Hn.
    unfold bind.
    destruct (try.executeHandlers ts e _) as [[[handled filtered]|q] m2] eqn:He;
      apply executeHandlers_calls in He as (new & Hnew & Hall);
      cbn [try.calls] in Hnew; intros Hr.
    - cbn [fst snd] in Hr.
      assert (m' = m2) as ->
        by (destruct (negb handled && negb filtered); unfold panic, ret in Hr; congruence).
      exists new. split; [exact Hnew |].
      eapply Forall_impl; [exact Hall | intros ev [slot ->]; eauto].
    - assert (m' = m2) as -> by congruence.
      exists new. split; [exact Hnew |].
      eapply Forall_impl; [exact Hall | intros ev [slot ->]; eauto]. }
  destruct p; try exact Hgo.
  intros [= <- <-]. exists []. now rewrite app_nil_r.
Qed.

(** What the deferred recovery does with a payload other than the
    pass-through marker: normalize, resolve, and raise again what nobody
    handled or filtered. *)
Lemma recovered_payload (ts : try.Try) (p : any) (m : try.Machine) (e : Error.t) (s : Store) :
  p <> VPass ->
  try.normalizeError p (try.store m) = (Returned e, s) ->
  try.recovered ts (Panicked p) m =
    match try.executeHandlers ts e (try.mkMachine s (try.calls m)) with
    | (Returned hf, m2) =>
        if negb (fst hf) && negb (snd hf)
        then (Panicked (VError e), m2)
        else (Returned tt, m2)
    | (Panicked q, m2) => (Panicked q, m2)
    end.
Proof.
  intros Hp Hn.
  assert (Hgo :
    (do err <- try.lift (try.normalizeError p);
     do hf <- try.executeHandlers ts err;
     if negb (fst hf) && negb (snd hf) then panic (VError err) else ret tt)%go m
    = match try.executeHandlers ts e (try.mkMachine s (try.calls m)) with
      | (Returned hf, m2) =>
          if negb (fst hf) && negb (snd hf)
          then (Panicked (VError e), m2)
          else (Returned tt, m2)
      | (Panicked q, m2) => (Panicked q, m2)
      end).
  { unfold bind at 1, try.lift. rewrite Hn. unfold bind.
    destruct (try.executeHandlers ts e _) as [[hf|q] m2]; [| done].
    now destruct (negb (fst hf) && negb (snd hf)). }
  destruct p; try exact Hgo. done.
Qed.

Lemma Finally_eq (ts : try.Try) (finally : option (Go unit)) (m m1 m2 : try.Machine)
    (r r' : Outcome unit) :
  try.call_tryFunc ts m = (r, m1) ->
  try.recovered ts r m1 = (r', m2) ->
  try.Finally ts finally m = try.deferred_finally finally r' m2.
Proof. intros H1 H2. unfold try.Finally. now rewrite H1, H2. Qed.

(** An error that a filter rejects: no handler, no raise. *)
Lemma Finally_rejected (ts : try.Try) (finally : option (Go unit)) (m m1 m2 : try.Machine)
    (p : any) (e : Error.t) (s1 : Store) :
  try.call_tryFunc ts m = (Panicked p, m1) ->
  p <> VPass ->
  try.normalizeError p (try.store m1) = (Returned e, s1) ->
  try.applyFilters 0 (try.filters ts) e (try.mkMachine s1 (try.calls m1))
    = (Returned false, m2) ->
  try.Finally ts finally m = try.deferred_finally finally (Returned tt) m2.
Proof.
  intros Hb Hp Hn Hf. apply (Finally_eq _ _ _ _ _ _ _ Hb).
  rewrite (recovered_payload _ _ _ _ _ Hp Hn).
  now rewrite (executeHandlers_rejected _ _ _ _ Hf).
Qed.

(** An error that every filter accepts and no handler is there for: raised
    again, as it is. *)
Lemma Finally_unhandled (ts : try.Try) (finally : option (Go unit)) (m m1 m2 : try.Machine)
    (p : any) (e : Error.t) (s1 : Store) :
  try.call_tryFunc ts m = (Panicked p, m1) ->
  p <> VPass ->
  try.normalizeError p (try.store m1) = (Returned e, s1) ->
  try.applyFilters 0 (try.filters ts) e (try.mkMachine s1 (try.calls m1))
    = (Returned true, m2) ->
  resolution_order ts e = [] ->
  try.Finally ts finally m = try.deferred_finally finally (Panicked (VError e)) m2.
Proof.
  intros Hb Hp Hn Hf Hnone. apply (Finally_eq _ _ _ _ _ _ _ Hb).
  rewrite (recovered_payload _ _ _ _ _ Hp Hn).
  now rewrite (executeHandlers_accepted _ _ _ _ Hf), Hnone.
Qed.

(** C2. When the protected block raises a payload other than the
    pass-through marker and, for the normalized error, the filters end with
    one that returns false, the engine hands its finalizer a normal return:
    nothing is raised again, and with a finalizer that returns (or none) the
    execution call returns.  Between the protected block and the finalizer
    only filters were called: no specific, group, fallback or global
    handler. *)
Theorem rejected_error_is_discarded (ts : try.Try) (finally : option (Go unit))
    (m m1 m2 : try.Machine) (p : any) (e : Error.t) (s1 : Store) :
  try.call_tryFunc ts m = (Panicked p, m1) ->
  p <> VPass ->
  try.normalizeError p (try.store m1) = (Returned e, s1) ->
  try.applyFilters 0 (try.filters ts) e (try.mkMachine s1 (try.calls m1))
    = (Returned false, m2) ->
  try.Finally ts finally m = try.deferred_finally finally (Returned tt) m2 /\
  (finally_returns finally -> fst (try.Finally ts finally m) = Returned tt) /\
  exists new,
    try.calls (snd (try.Finally ts finally m)) = try.calls m ++ new /\
    Forall (fun ev => ~ handler_call ev) new.
Proof.
  intros Hb Hp Hn Hf.
  pose proof (Finally_rejected ts finally _ _ _ _ _ _ Hb Hp Hn Hf) as HF.
  split; [exact HF |]. split.
  - intros Hfin. rewrite HF. now apply deferred_finally_returns.
  - rewrite HF.
    destruct (try.deferred_finally finally (Returned tt) m2) as [r3 m3] eqn:Hd.
    apply deferred_finally_calls in Hd.
    apply applyFilters_calls in Hf as (n & _ & Hcalls). cbn [try.calls] in Hcalls.
    apply call_tryFunc_calls in Hb as (new1 & Hnew1 & Hkind).
    exists (new1 ++ filter_calls 0 n e ++ finally_calls finally).
    cbn [snd]. split.
    + rewrite Hd, Hcalls, Hnew1. now rewrite <- !app_assoc.
    + rewrite !Forall_app. repeat split.
      * destruct Hkind as [-> | ->]; repeat constructor; intros [].
      * apply Forall_map, Forall_forall. intros j _ [].
      * destruct finally; repeat constructor; intros [].
Qed.

(** C6. When the protected block raises the pass-through marker the engine
    goes straight to its finalizer, with a normal return to hand on: the
    store is the one the block left (nothing was normalized, no map made),
    the only call recorded is that of the block, and nothing is raised
    again. *)
Theorem pass_marker_ends_quietly (ts : try.Try) (finally : option (Go unit))
    (block : Go unit) (m : try.Machine) (s1 : Store) :
  try.tryFunc ts = Some block ->
  block (try.store m) = (Panicked VPass, s1) ->
  try.Finally ts finally m
    = try.deferred_finally finally (Returned tt)
        (try.mkMachine s1 (try.calls m ++ [try.EvTry])) /\
  (finally_returns finally -> fst (try.Finally ts finally m) = Returned tt) /\
  try.calls (snd (try.Finally ts finally m))
    = try.calls m ++ [try.EvTry] ++ finally_calls finally.
Proof.
  intros Hts Hb.
  assert (HF : try.Finally ts finally m
               = try.deferred_finally finally (Returned tt)
                   (try.mkMachine s1 (try.calls m ++ [try.EvTry]))).
  { apply Finally_eq with (r := Panicked VPass) (m1 := try.mkMachine s1 (try.calls m ++ [try.EvTry])).
    - unfold try.call_tryFunc. rewrite Hts. now apply invoke_eq.
    - reflexivity. }
  split; [exact HF |]. split.
  - intros Hfin. rewrite HF. now apply deferred_finally_returns.
  - rewrite HF.
    destruct (try.deferred_finally finally (Returned tt) _) as [r3 m3] eqn:Hd.
    apply deferred_finally_calls in Hd. cbn [snd try.calls] in *.
    now rewrite Hd, <- app_assoc.
Qed.

(** C5. A finalizer given to the execution call is called exactly once, and
    its call is the last thing the engine does: the calls made are those
    before it, none of them a call of the finalizer, and then the finalizer;
    the store the call returns with is the store the finalizer left.  This
    holds whatever the protected block, the filters and the handlers do. *)
Theorem finalizer_runs_once_and_last (ts : try.Try) (f : Go unit) (m : try.Machine) :
  exists (before : list try.Event) (s2 : Store),
    try.calls (snd (try.Finally ts (Some f) m)) = try.calls m ++ before ++ [try.EvFinally] /\
    (try.EvFinally ∉ before) /\
    try.store (snd (try.Finally ts (Some f) m)) = snd (f s2).
Proof.
  unfold try.Finally.
  destruct (try.call_tryFunc ts m) as [r m1] eqn:Hb.
  destruct (try.recovered ts r m1) as [r' m2] eqn:Hr.
  apply call_tryFunc_calls in Hb as (new1 & Hnew1 & Hkind).
  apply recovered_calls in Hr as (new2 & Hnew2 & Hall).
  exists (new1 ++ new2), (try.store m2).
  cbn [try.deferred_finally]. unfold try.invoke.
  destruct (f (try.store m2)) as [[[]|q] s3]; cbn [snd try.calls try.store];
    rewrite Hnew2, Hnew1, <- !app_assoc; (split; [done |]); (split; [| done]);
    rewrite not_elem_of_app; (split;
      [ destruct Hkind as [-> | ->]; [rewrite list_elem_of_singleton; discriminate
                                     | apply not_elem_of_nil]
      | intros Hin; rewrite Forall_forall in Hall;
        destruct (Hall _ Hin) as (slot & e & He); discriminate He ]).
Qed.

(** One engine that the error passes raises it to its caller, in the store
    its finalizer leaves. *)
Lemma layer_raises_again (e : Error.t) (ts : try.Try) (finally : option (Go unit))
    (block : Go unit) (s s1 s1' s2 s3 : Store) (p : any) :
  resolution_order ts e = [] ->
  filters_pass ts e s1' s2 ->
  finally_leaves finally s2 s3 ->
  block s = (Panicked p, s1) ->
  p <> VPass ->
  try.normalizeError p s1 = (Returned e, s1') ->
  try.as_block (try.Finally (with_block ts block) finally) s = (Panicked (VError e), s3).
Proof.
  intros Hnone Hfs Hfin Hb Hp Hn.
  set (m := try.mkMachine s []).
  assert (Hcall : try.call_tryFunc (with_block ts block) m
                  = (Panicked p, try.mkMachine s1 ([] ++ [try.EvTry])))
    by now apply invoke_eq.
  unfold filters_pass, try.as_block in Hfs.
  destruct (applyFilters_store 0 (try.filters ts) e (try.mkMachine s1' [])
              ([] ++ [try.EvTry])) as [Hfst Hsnd].
  cbn [try.store] in Hfst, Hsnd.
  destruct (try.applyFilters 0 (try.filters ts) e (try.mkMachine s1' [])) as [r0 m0].
  injection Hfs as -> <-.
  destruct (try.applyFilters 0 (try.filters ts) e
              (try.mkMachine s1' ([] ++ [try.EvTry]))) as [r2 m2] eqn:Hm2.
  cbn [fst snd] in Hfst, Hsnd. subst r2.
  pose proof (Finally_unhandled (with_block ts block) finally m _ m2 p e s1'
                Hcall Hp Hn Hm2 Hnone) as HF.
  unfold try.as_block. fold m. rewrite HF.
  destruct finally as [f|]; cbn [try.deferred_finally finally_leaves] in *.
  - unfold try.invoke. rewrite Hsnd, Hfin. reflexivity.
  - now rewrite Hfin, Hsnd.
Qed.

(** Engines around a block that raises [e], all of which [e] passes, raise
    [e]. *)
Lemma nested_raises_again (e : Error.t) (layers : list (try.Try * option (Go unit)))
    (block : Go unit) (s s1 s' : Store) :
  passes e layers s1 s' ->
  block s = (Panicked (VError e), s1) ->
  nested layers block s = (Panicked (VError e), s').
Proof.
  intros Hpass. revert block.
  induction Hpass as [s1|ts finally outer s1 s2 s3 s' Hnone Hfs Hfin _ IH];
    intros block Hb.
  - exact Hb.
  - cbn [nested]. apply IH.
    apply (layer_raises_again e ts finally block s s1 s1 s2 s3 (VError e));
      [exact Hnone | exact Hfs | exact Hfin | exact Hb | done
      | apply normalizeError_classified].
Qed.

(** Engines with no filter and no finalizer hand the store on as it is. *)
Lemma passes_untouched (e : Error.t) (layers : list (try.Try * option (Go unit)))
    (s s' : Store) :
  passes e layers s s' ->
  Forall (fun layer => try.filters (fst layer) = [] /\ snd layer = None) layers ->
  s' = s.
Proof.
  induction 1 as [s|ts finally outer s s2 s3 s' _ Hfs Hfin _ IH]; [done |].
  intros Hall. apply Forall_cons in Hall as [[Hnofilter Hnofinally] Houter].
  cbn [fst snd] in *. subst finally.
  unfold filters_pass, try.as_block in Hfs. rewrite Hnofilter in Hfs.
  cbn in Hfs. injection Hfs as <-. cbn in Hfin. subst s3. now apply IH.
Qed.

(** C3. A block raises a payload [p] other than the pass-through marker,
    and [e] is the normalized error.  When an engine has no specific, group,
    fallback or global handler to call for [e] and, in this run, no filter of
    it returns false (and its finalizer returns), its execution call raises
    [e] itself: the payload has the code, message, stack and context of the
    normalized error, and the normalized error of a [throw.Error] is that
    [throw.Error], the store untouched.  Engines around it that [e] passes in
    the same way hand the same payload on, and the caller of the outermost one
    receives it, in the store the last finalizer left.  Where no engine on the
    way has a filter or a finalizer that store is the one normalization left,
    so that the context map holds what it held. *)
Theorem unhandled_error_is_raised_again (e : Error.t)
    (layer : try.Try * option (Go unit)) (outer : list (try.Try * option (Go unit)))
    (block : Go unit) (s s1 s1' s' : Store) (p : any) :
  block s = (Panicked p, s1) ->
  p <> VPass ->
  try.normalizeError p s1 = (Returned e, s1') ->
  passes e (layer :: outer) s1' s' ->
  (exists s3,
     passes e [layer] s1' s3 /\
     try.as_block (try.Finally (with_block (fst layer) block) (snd layer)) s
       = (Panicked (VError e), s3)) /\
  nested (layer :: outer) block s = (Panicked (VError e), s') /\
  (forall e0, p = VError e0 -> e = e0 /\ s1' = s1) /\
  (Forall (fun layer => try.filters (fst layer) = [] /\ snd layer = None) (layer :: outer) ->
   s' = s1').
Proof.
  intros Hb Hp Hn Hpass.
  split; [| split; [| split]].
  - inversion Hpass as [|ts finally outer' s0 s2 s3 s0' Hnone Hfs Hfin Houter]; subst.
    exists s3. split.
    + exact (passes_layer e ts finally [] s1' s2 s3 s3 Hnone Hfs Hfin (passes_nil e s3)).
    + exact (layer_raises_again e ts finally block s s1 s1' s2 s3 p
               Hnone Hfs Hfin Hb Hp Hn).
  - inversion Hpass as [|ts finally outer' s0 s2 s3 s0' Hnone Hfs Hfin Houter]; subst.
    cbn [nested].
    apply (nested_raises_again e outer _ s s3 s' Houter).
    exact (layer_raises_again e ts finally block s s1 s1' s2 s3 p
             Hnone Hfs Hfin Hb Hp Hn).
  - intros e0 ->. rewrite normalizeError_classified in Hn. split; congruence.
  - intros Hall. exact (passes_untouched e _ _ _ Hpass Hall).
Qed.

(** C7. A payload that is no [throw.Error] is normalized to an error with
    code [FallbackErrorIndex], the message built from the [%v] and [%T] texts
    of the payload, the stack [GetPanicStack] returns at that point and a new,
    empty map as context; a [throw.Error] is taken as it is.  When a block
    raises such a payload in an engine built by registration calls that has a
    fallback and a global handler, and the filters accept the error, the
    fallback handler is called with it and then the global handler, and
    nothing is raised again. *)
Theorem unclassified_panic_is_normalized :
  (forall (p : any) (s : Store),
      unclassified p ->
      exists e s',
        try.normalizeError p s = (Returned e, s') /\
        Error.Index e = throw.FallbackErrorIndex /\
        Error.Message e
          = ("unexpected panic: " ++ Sprint_v p ++ " (type: " ++ Sprint_T p ++ ")")%string /\
        throw.GetPanicStack s = (Returned (Error.Stack e), s) /\
        exists l, Error.Context e = Some l /\
                  heap s !! l = None /\
                  heap s' = <[l := ∅]> (heap s) /\
                  env s' = env s) /\
  (forall (e : Error.t) (s : Store),
      try.normalizeError (VError e) s = (Returned e, s)) /\
  (forall (ts : try.Try) (finally : option (Go unit)) (m m1 m2 : try.Machine)
          (p : any) (e : Error.t) (s1 : Store) (fallback global : try.ErrorHandler),
      try.call_tryFunc ts m = (Panicked p, m1) ->
      unclassified p ->
      p <> VPass ->
      try.normalizeError p (try.store m1) = (Returned e, s1) ->
      no_reserved_entry ts ->
      try.fallbackHandler ts = Some fallback ->
      try.globalHandler ts = Some global ->
      try.applyFilters 0 (try.filters ts) e (try.mkMachine s1 (try.calls m1))
        = (Returned true, m2) ->
      handler_returns fallback e ->
      handler_returns global e ->
      exists m3,
        try.Finally ts finally m = try.deferred_finally finally (Returned tt) m3 /\
        try.calls m3
          = try.calls m2 ++ [try.EvCall try.SFallback e; try.EvCall try.SGlobal e]).
Proof.
  split; [| split].
  - intros p s Hu.
    destruct (normalizeError_unclassified p s Hu) as (stack & Hstack & Hn).
    do 2 eexists. split; [exact Hn |]. cbn. repeat split; [exact Hstack |].
    eexists. repeat split. apply new_loc_fresh.
  - reflexivity.
  - intros ts finally m m1 m2 p e s1 fallback global Hb Hu Hp Hn Hres Hfb Hgl Hf Hrf Hrg.
    assert (Hres' : reserved (Error.Index e)).
    { destruct (normalizeError_unclassified p (try.store m1) Hu) as (stack & _ & Hn').
      rewrite Hn in Hn'. injection Hn' as -> _. right. reflexivity. }
    destruct (Hres _ Hres') as [Hs Hg].
    assert (Horder : resolution_order ts e = [(try.SFallback, fallback); (try.SGlobal, global)]).
    { unfold resolution_order. now rewrite Hs, Hg, Hfb, Hgl. }
    assert (Hall : Forall (fun sh => handler_returns (snd sh) e) (resolution_order ts e)).
    { rewrite Horder. repeat constructor; assumption. }
    destruct (invoke_all_returns _ e m2 Hall) as [s3 Hs3].
    eexists. split.
    + apply (Finally_eq _ _ _ _ _ _ _ Hb).
      rewrite (recovered_payload _ _ _ _ _ Hp Hn).
      rewrite (executeHandlers_accepted _ _ _ _ Hf), Hs3, Horder. reflexivity.
    + reflexivity.
Qed.

End Execution.

(** ** The tests of the package, run on the model *)

Section Tests.
#[local] Existing Instance test_runtime.

Example TestTryIndex :
  run_test (throw.Index 123 "test error") [RIndex 123 (Some (handler "caught"))] None
  = (Returned tt, ["caught"%string]).
Proof. reflexivity. Qed.

Example TestTryGroup :
  run_test (throw.Index 404 "not found")
    [RGroup [400; 401; 403; 404] (Some (handler "groupCaught"));
     RCatch (Some (handler "globalCaught"))] None
  = (Returned tt, ["groupCaught"%string; "globalCaught"%string]).
Proof. reflexivity. Qed.

Example TestTryFilter :
  run_test (throw.Index 500 "server error")
    [RFilter (Some only_4xx); RIndex 500 (Some (handler "handlerCalled"))] None
  = (Returned tt, ["filterCalled"%string]).
Proof. reflexivity. Qed.

Example TestTryMultipleFilters :
  run_test (throw.IndexWithContext 403 "forbidden" "userID" (VInt 123))
    [RFilter (Some from_400); RFilter (Some has_userID);
     RIndex 403 (Some (handler "handlerCalled"))] None
  = (Returned tt, ["filter1Called"%string; "filter2Called"%string; "handlerCalled"%string]).
Proof. reflexivity. Qed.

Example TestTryUnknown :
  run_test (throw.Index 999 "unknown error")
    [RIndex 404 (Some (handler "unexpected"));
     RUnknown (Some (handler "unknownCaught"));
     RCatch (Some (handler "globalCaught"))] None
  = (Returned tt, ["unknownCaught"%string; "globalCaught"%string]).
Proof. reflexivity. Qed.

Example TestTryFinally :
  run_test (throw.Index 500 "test") [RIndex 500 (Some (handler "handlerCalled"))]
    (Some (set_flag "finallyCalled"))
  = (Returned tt, ["handlerCalled"%string; "finallyCalled"%string]).
Proof. reflexivity. Qed.

Example TestTryDo :
  run_test (set_flag "called") [] None = (Returned tt, ["called"%string]).
Proof. reflexivity. Qed.

(** A handler that panics ends resolution; the finalizer still runs, and the
    panic of the handler is what the caller gets. *)
Example handler_panics :
  run_test (throw.Index 404 "not found")
    [RIndex 404 (Some (fun _ => panic (VString "handler failed")));
     RCatch (Some (handler "globalCaught"))]
    (Some (set_flag "finallyCalled"))
  = (Panicked (VString "handler failed"), ["finallyCalled"%string]).
Proof. reflexivity. Qed.

End Tests.

(** ** The properties at work on the scenarios *)

Section Witnesses.
#[local] Existing Instance test_runtime.

(** C1 on [not_found_engine]: the specific handler, the group handler, the
    global handler; the fallback handler is not called. *)
Lemma handlers_run_in_resolution_order_witness :
  exists m2,
    try.executeHandlers not_found_engine (raised 404 "not found") start_machine
      = (Returned (true, false), m2) /\
    try.calls m2
      = [try.EvCall (try.SSpecific 404) (raised 404 "not found");
         try.EvCall (try.SGroup 404 0) (raised 404 "not found");
         try.EvCall try.SGlobal (raised 404 "not found")].
Proof.
  destruct (handlers_run_in_resolution_order not_found_engine (raised 404 "not found")
              start_machine start_machine eq_refl) as [_ Hall].
  apply Hall.
  repeat constructor; intros s; eexists; reflexivity.
Defined.

(** C2 on [TestTryFilter]: the filter is called and rejects the error, the
    handler of 500 is not called, and the call returns. *)
Lemma rejected_error_is_discarded_witness :
  try.Finally server_error_engine None start_machine
    = (Returned tt,
       try.mkMachine (mkStore ∅ ["filterCalled"%string])
         [try.EvTry; try.EvCall (try.SFilter 0) (raised 500 "server error")]).
Proof.
  refine (proj1 (rejected_error_is_discarded server_error_engine None
                   start_machine (try.mkMachine start [try.EvTry]) _
                   (VError (raised 500 "server error")) (raised 500 "server error")
                   start _ _ _ _)).
  - reflexivity.
  - discriminate.
  - reflexivity.
  - reflexivity.
Defined.

(** C3 on [unhandled_layer] inside [outer_layer]: the second filter reads
    the context of the error and returns true for this one; 403 has no
    handler in either engine and reaches the outermost caller, after the
    filters of both engines and the finalizer of the inner one. *)
Lemma unhandled_error_is_raised_again_witness :
  nested [unhandled_layer; outer_layer] forbidden_block start
    = (Panicked (VError forbidden_error),
       forbidden_store ["filter1Called"%string; "filter2Called"%string;
                        "finallyCalled"%string; "filter1Called"%string]).
Proof.
  refine (proj1 (proj2 (unhandled_error_is_raised_again forbidden_error
                          unhandled_layer [outer_layer] forbidden_block
                          start (forbidden_store []) (forbidden_store []) _
                          (VError forbidden_error) _ _ _ _))).
  - reflexivity.
  - discriminate.
  - reflexivity.
  - apply (passes_layer forbidden_error _ _ _ _
             (forbidden_store ["filter1Called"%string; "filter2Called"%string])
             (forbidden_store ["filter1Called"%string; "filter2Called"%string;
                               "finallyCalled"%string])); [reflexivity .. |].
    apply (passes_layer forbidden_error _ _ _ _
             (forbidden_store ["filter1Called"%string; "filter2Called"%string;
                               "finallyCalled"%string; "filter1Called"%string])
             (forbidden_store ["filter1Called"%string; "filter2Called"%string;
                               "finallyCalled"%string; "filter1Called"%string]));
      [reflexivity .. |].
    apply passes_nil.
Defined.

(** C6: the pass-through marker with a global handler registered. *)
Lemma pass_marker_ends_quietly_witness :
  try.Finally pass_engine (Some (set_flag "finally")) start_machine
    = (Returned tt,
       try.mkMachine (mkStore ∅ ["finally"%string]) [try.EvTry; try.EvFinally]).
Proof.
  refine (proj1 (pass_marker_ends_quietly pass_engine (Some (set_flag "finally"))
                   (panic VPass) start_machine start _ _)); reflexivity.
Defined.

(** C7: [panic("oops")] with a fallback and a global handler registered. *)
Lemma unclassified_panic_is_normalized_witness :
  exists m3,
    try.Finally oops_engine None start_machine
      = try.deferred_finally None (Returned tt) m3 /\
    try.calls m3
      = [try.EvTry; try.EvCall try.SFallback oops_error; try.EvCall try.SGlobal oops_error].
Proof.
  refine (proj2 (proj2 unclassified_panic_is_normalized) oops_engine None
            start_machine (try.mkMachine start [try.EvTry])
            (try.mkMachine (mkStore {[1%positive := ∅]} []) [try.EvTry])
            (VString "oops") oops_error (mkStore {[1%positive := ∅]} [])
            (handler "unknown") (handler "catch") _ _ _ _ _ _ _ _ _ _).
  - reflexivity.
  - intros e. discriminate.
  - discriminate.
  - reflexivity.
  - apply chain_no_reserved_entry, Run_no_reserved_entry.
  - reflexivity.
  - reflexivity.
  - reflexivity.
  - intros s; eexists; reflexivity.
  - intros s; eexists; reflexivity.
Defined.

(** C9: the first filter accepts, the second rejects, the third is not
    called. *)
Lemma filters_run_in_registration_order_witness :
  try.executeHandlers forbidden_engine (raised 403 "forbidden") start_machine
    = (Returned (false, true),
       try.mkMachine (mkStore ∅ ["filter1Called"%string; "filter2Called"%string])
         [try.EvCall (try.SFilter 0) (raised 403 "forbidden");
          try.EvCall (try.SFilter 1) (raised 403 "forbidden")]).
Proof.
  refine (proj1 (filters_run_in_registration_order forbidden_engine
                   (raised 403 "forbidden") start_machine)
            [from_400] has_userID [never_reached]
            (try.mkMachine (mkStore ∅ ["filter1Called"%string])
               [try.EvCall (try.SFilter 0) (raised 403 "forbidden")])
            (mkStore ∅ ["filter1Called"%string; "filter2Called"%string]) _ _ _);
    reflexivity.
Defined.

End Witnesses.
(** ** Package throw: further properties *)

Section ThrowExtras.
Context `{Runtime}.

Lemma substring_all (t : string) : substring 0 (String.length t) t = t.
Proof. induction t as [|c t IH]; cbn; [done | now rewrite IH]. Qed.

Lemma substring_length_le (n : nat) (t : string) :
  (n <= String.length t)%nat -> String.length (substring 0 n t) = n.
Proof.
  revert n. induction t as [|c t IH]; intros [|n] Hn; cbn in *; try done; try lia.
  rewrite IH; [done | lia].
Qed.

(** X1. [GetPanicStack] returns the first 2048 bytes of the stack text, and
    the whole text when it has no more than that; it leaves the store as it
    is.  (The second, larger buffer is not grown again.) *)
Theorem GetPanicStack_at_most_2048 (s : Store) :
  throw.GetPanicStack s
    = (Returned (substring 0 (Nat.min 2048 (String.length (stack_text (env s))))
                   (stack_text (env s))), s) /\
  ((String.length (stack_text (env s)) <= 2048)%nat ->
   throw.GetPanicStack s = (Returned (stack_text (env s)), s)) /\
  forall stack, throw.GetPanicStack s = (Returned stack, s) ->
                (String.length stack <= 2048)%nat.
Proof.
  set (text := stack_text (env s)).
  assert (Hmain : throw.GetPanicStack s
            = (Returned (substring 0 (Nat.min 2048 (String.length text)) text), s)).
  { unfold throw.GetPanicStack, throw.runtime_Stack. fold text.
    change (1024 * 2)%nat with 2048%nat.
    destruct (Nat.eqb_spec (Nat.min 1024 (String.length text)) 1024) as [Heq|Hne];
      [done |].
    replace (Nat.min 1024 (String.length text))
      with (Nat.min 2048 (String.length text)) by lia.
    done. }
  split; [exact Hmain |]. split.
  - intros Hle. rewrite Hmain. rewrite Nat.min_r by exact Hle.
    now rewrite substring_all.
  - intros stack Hs. rewrite Hmain in Hs.
    assert (stack = substring 0 (Nat.min 2048 (String.length text)) text) as ->
      by congruence.
    rewrite substring_length_le; lia.
Qed.


(** X2. [HasContext] is the second result of [GetContext].  It is false
    for an error without a context and for a key the context map does not
    hold, and [GetContext] then returns no value; for a key the map holds
    [GetContext] returns the value held and [true]. *)
Theorem GetContext_HasContext_agree (e : Error.t) (key : string)
    (h : gmap loc (gmap string any)) :
  throw.HasContext e key h = snd (throw.GetContext e key h) /\
  (throw.HasContext e key h = false -> throw.GetContext e key h = (None, false)) /\
  (Error.Context e = None -> throw.HasContext e key h = false) /\
  (forall l, Error.Context e = Some l ->
     (throw.HasContext e key h = true <-> key ∈ dom (throw.map_at h l))) /\
  (forall l v, Error.Context e = Some l -> throw.map_at h l !! key = Some v ->
     throw.GetContext e key h = (Some v, true)).
Proof.
  unfold throw.HasContext, throw.GetContext.
  destruct (Error.Context e) as [l|].
  - split; [| split; [| split; [| split]]].
    + destruct (throw.map_at h l !! key) as [v|] eqn:Hk; cbn [snd].
      * apply bool_decide_eq_true. eauto.
      * apply bool_decide_eq_false. now intros [v Hv].
    + intros Hno. apply bool_decide_eq_false in Hno.
      destruct (throw.map_at h l !! key) as [v|]; [| done].
      exfalso. apply Hno. eauto.
    + done.
    + intros l' [= <-]. now rewrite bool_decide_eq_true, elem_of_dom.
    + intros l' v [= <-] Hk. now rewrite Hk.
  - split; [done | split; [done | split; [done | split]]]; intros l; discriminate.
Qed.

(** X3. [WithContextMap] returns an error with the fields of [e] that reads
    every key of [ctx] with the value of [ctx] and every other key as [e]
    did.  With a nil context a map is made for the returned value, also when
    [ctx] is empty, and no map that was there changes; otherwise the entries
    are written into the map [e] refers to, and only that map changes. *)
Theorem WithContextMap_merges (e : Error.t) (ctx : gmap string any)
    (h : gmap loc (gmap string any)) :
  let e' := fst (throw.WithContextMap e ctx h) in
  let h' := snd (throw.WithContextMap e ctx h) in
  Error.Index e' = Error.Index e /\
  Error.Message e' = Error.Message e /\
  Error.Stack e' = Error.Stack e /\
  (forall k, throw.GetContext e' k h'
             = match ctx !! k with
               | Some v => (Some v, true)
               | None => throw.GetContext e k h
               end) /\
  match Error.Context e with
  | None =>
      (exists l, Error.Context e' = Some l /\ h !! l = None) /\
      (forall l, is_Some (h !! l) -> h' !! l = h !! l)
  | Some l =>
      e' = e /\ (forall l', l' <> l -> h' !! l' = h !! l')
  end.
Proof.
  unfold throw.WithContextMap.
  destruct (Error.Context e) as [l|] eqn:Hc; cbn.
  - repeat split; auto.
    + intros k. unfold throw.GetContext. rewrite Hc.
      unfold throw.map_at at 1. rewrite lookup_insert_eq. cbn.
      rewrite lookup_union.
      destruct (ctx !! k) as [v|]; [now destruct (throw.map_at h l !! k) |].
      now rewrite (left_id None _).
    + intros l' Hl. now rewrite lookup_insert_ne by congruence.
  - pose proof (new_loc_fresh h) as Hfresh.
    repeat split.
    + intros k. unfold throw.GetContext, throw.map_at; cbn.
      rewrite Hc, lookup_insert_eq; cbn. now destruct (ctx !! k).
    + eauto.
    + intros l [m Hl]. rewrite lookup_insert_ne; [done |].
      intros <-. congruence.
Qed.

(** X4. [WithContextMap] with a map of one entry does what [WithContext]
    does with that entry. *)
Theorem WithContextMap_singleton (e : Error.t) (key : string) (value : any)
    (h : gmap loc (gmap string any)) :
  throw.WithContextMap e {[key := value]} h = throw.WithContext e key value h.
Proof.
  unfold throw.WithContextMap, throw.WithContext.
  destruct (Error.Context e) as [l|]; [| done].
  now rewrite (insert_union_singleton_l (throw.map_at h l) key value).
Qed.


(** X5. The raise primitives without context never return: [Index] and
    [New] panic with a [throw.Error] that has the code ([FallbackErrorIndex]
    for [New]), the message, the captured stack and a nil context;
    [IndexNoStack] does the same with an empty stack.  None of them changes
    the store. *)
Theorem raise_primitives_panic (index : Z) (message : string) (s : Store) :
  plain_raise (throw.Index index message s) s index message /\
  plain_raise (throw.New message s) s throw.FallbackErrorIndex message /\
  throw.IndexNoStack index message s
    = (Panicked (VError (Error.mk index message "" None)), s).
Proof.
  split; [| split; [| reflexivity]].
  - destruct (Index_panics index message s) as [stack Hi].
    exists stack. split; [| exact Hi].
    destruct (GetPanicStack_returns s) as [stack' Hs].
    unfold throw.Index, bind in Hi. rewrite Hs in Hi. unfold panic in Hi. congruence.
  - destruct (Index_panics throw.FallbackErrorIndex message s) as [stack Hi].
    exists stack. split; [| exact Hi].
    destruct (GetPanicStack_returns s) as [stack' Hs].
    unfold throw.Index, bind in Hi. rewrite Hs in Hi. unfold panic in Hi. congruence.
Qed.

Lemma context_raise_intro {A : Type} (index : Z) (message stack : string)
    (key : string) (v : any) (s : Store) :
  context_raise (A := A)
    (Panicked (VError (Error.mk index message stack (Some (throw.new_loc (heap s))))),
     mkStore (<[throw.new_loc (heap s) := {[key := v]}]> (heap s)) (env s))
    s index message key v.
Proof.
  pose proof (new_loc_fresh (heap s)) as Hfresh.
  do 2 eexists. split; [reflexivity |]. cbn.
  repeat split; try done.
  - unfold throw.GetContext, throw.map_at; cbn.
    now rewrite lookup_insert_eq; cbn; rewrite lookup_singleton_eq.
  - intros k Hk. unfold throw.GetContext, throw.map_at; cbn.
    rewrite lookup_insert_eq; cbn. now rewrite lookup_singleton_ne by congruence.
  - intros l [m Hl]. rewrite lookup_insert_ne; [done |]. intros <-. congruence.
Qed.

Lemma IndexWithContext_raises (index : Z) (message : string) (key : string) (v : any)
    (s : Store) :
  context_raise (throw.IndexWithContext index message key v s) s index message key v.
Proof.
  destruct (GetPanicStack_returns s) as [stack Hs].
  unfold throw.IndexWithContext, bind. rewrite Hs.
  apply context_raise_intro.
Qed.

(** X6. The raise primitives with context never return: each panics with a
    [throw.Error] of the given code and message whose context is a map made
    for it, holding the one entry and nothing else, and leaves every map that
    was there as it was.  [IndexWithContext] captures the stack,
    [IndexNoStackWithContext] leaves it empty, [NewWithContext] uses the code
    [FallbackErrorIndex]. *)
Theorem context_raise_primitives_panic (index : Z) (message : string)
    (key : string) (v : any) (s : Store) :
  context_raise (throw.IndexWithContext index message key v s) s index message key v /\
  context_raise (throw.IndexNoStackWithContext index message key v s) s index message key v /\
  context_raise (throw.NewWithContext message key v s) s
    throw.FallbackErrorIndex message key v /\
  (forall e s', throw.IndexWithContext index message key v s = (Panicked (VError e), s') ->
                throw.GetPanicStack s = (Returned (Error.Stack e), s)) /\
  (forall e s', throw.IndexNoStackWithContext index message key v s
                = (Panicked (VError e), s') ->
                Error.Stack e = ""%string).
Proof.
  split; [apply IndexWithContext_raises |].
  split; [apply context_raise_intro |].
  split; [apply IndexWithContext_raises |].
  split.
  - intros e s'. destruct (GetPanicStack_returns s) as [stack Hs].
    unfold throw.IndexWithContext, bind. rewrite Hs. now intros [= <- <-].
  - intros e s'. unfold throw.IndexNoStackWithContext. now intros [= <- <-].
Qed.


Lemma Index_plain_raise (index : Z) (message : string) (s : Store) :
  plain_raise (throw.Index index message s) s index message.
Proof.
  destruct (GetPanicStack_returns s) as [stack Hs].
  exists stack. split; [exact Hs |].
  unfold throw.Index, bind. now rewrite Hs.
Qed.

(** X7. The conditional raisers: [True] and [TrueIndex] raise when the value
    is true and return otherwise, [False] and [FalseIndex] raise when the
    value is false and return otherwise, [IndexErr] raises when the error is
    not nil, with its text as the message, and returns otherwise.  When they
    return the store is as it was; when they raise, the payload has the given
    code ([FallbackErrorIndex] for [True] and [False]), the message, the
    captured stack and no context. *)
Theorem conditional_raisers (index : Z) (value : bool) (message : string)
    (err : error) (s : Store) :
  (if value
   then plain_raise (throw.True_ value message s) s throw.FallbackErrorIndex message /\
        plain_raise (throw.TrueIndex index value message s) s index message /\
        throw.False_ value message s = (Returned tt, s) /\
        throw.FalseIndex index value message s = (Returned tt, s)
   else throw.True_ value message s = (Returned tt, s) /\
        throw.TrueIndex index value message s = (Returned tt, s) /\
        plain_raise (throw.False_ value message s) s throw.FallbackErrorIndex message /\
        plain_raise (throw.FalseIndex index value message s) s index message) /\
  match err with
  | nil_error => throw.IndexErr index err s = (Returned tt, s)
  | an_error text => plain_raise (throw.IndexErr index err s) s index text
  end.
Proof.
  split.
  - destruct value; cbn [throw.True_ throw.False_ throw.TrueIndex throw.FalseIndex negb];
      repeat split; try reflexivity; apply Index_plain_raise.
  - destruct err as [|text]; [reflexivity | apply Index_plain_raise].
Qed.

(** X8. [FuncErr] and [FuncErrWithContext] call [fn] once and keep what it
    did to the store.  A nil [fn] is a nil dereference, not a [throw.Error];
    a panic of [fn] goes on as it is; a nil error gives a normal return; an
    error is raised with code [FallbackErrorIndex] and its text as message,
    from the store [fn] left. *)
Theorem FuncErr_cases (fn : option (Go error)) (key : string) (v : any) (s : Store) :
  match fn with
  | None =>
      throw.FuncErr fn s = (Panicked throw.nil_func_call, s) /\
      throw.FuncErrWithContext fn key v s = (Panicked throw.nil_func_call, s)
  | Some f =>
      match f s with
      | (Panicked q, s') =>
          throw.FuncErr fn s = (Panicked q, s') /\
          throw.FuncErrWithContext fn key v s = (Panicked q, s')
      | (Returned nil_error, s') =>
          throw.FuncErr fn s = (Returned tt, s') /\
          throw.FuncErrWithContext fn key v s = (Returned tt, s')
      | (Returned (an_error text), s') =>
          plain_raise (throw.FuncErr fn s) s' throw.FallbackErrorIndex text /\
          context_raise (throw.FuncErrWithContext fn key v s) s'
            throw.FallbackErrorIndex text key v
      end
  end.
Proof.
  destruct fn as [f|]; [| split; reflexivity].
  unfold throw.FuncErr, throw.FuncErrWithContext, bind. cbn [throw.call_fn].
  destruct (f s) as [[[|text]|q] s']; try (split; reflexivity).
  split; [apply Index_plain_raise | apply IndexWithContext_raises].
Qed.

(** X9. The conditional raisers with context raise exactly when their
    plain counterparts do, and then with a context map made for the payload
    that holds the one entry; when they return, nothing is allocated and the
    store is as it was.  [ValueErrWithContext] returns its value then. *)
Theorem conditional_context_raisers {T : Type} (index : Z) (value : bool)
    (message : string) (err : error) (x : T) (key : string) (v : any) (s : Store) :
  (if value
   then context_raise (throw.TrueWithContext value message key v s) s
          throw.FallbackErrorIndex message key v /\
        context_raise (throw.TrueIndexWithContext index value message key v s) s
          index message key v /\
        throw.FalseWithContext value message key v s = (Returned tt, s) /\
        throw.FalseIndexWithContext index value message key v s = (Returned tt, s)
   else throw.TrueWithContext value message key v s = (Returned tt, s) /\
        throw.TrueIndexWithContext index value message key v s = (Returned tt, s) /\
        context_raise (throw.FalseWithContext value message key v s) s
          throw.FallbackErrorIndex message key v /\
        context_raise (throw.FalseIndexWithContext index value message key v s) s
          index message key v) /\
  match err with
  | nil_error =>
      throw.ErrWithContext err key v s = (Returned tt, s) /\
      throw.IndexErrWithContext index err key v s = (Returned tt, s) /\
      throw.ValueErrWithContext x err key v s = (Returned x, s)
  | an_error text =>
      context_raise (throw.ErrWithContext err key v s) s
        throw.FallbackErrorIndex text key v /\
      context_raise (throw.IndexErrWithContext index err key v s) s index text key v /\
      context_raise (throw.ValueErrWithContext x err key v s) s
        throw.FallbackErrorIndex text key v
  end.
Proof.
  split.
  - destruct value;
      cbn [throw.TrueWithContext throw.FalseWithContext throw.TrueIndexWithContext
           throw.FalseIndexWithContext negb];
      repeat split; try reflexivity; apply IndexWithContext_raises.
  - destruct err as [|text]; [repeat split; reflexivity |].
    split; [apply IndexWithContext_raises |].
    split; [apply IndexWithContext_raises |].
    destruct (IndexWithContext_raises throw.FallbackErrorIndex text key v s)
      as (e & s' & Hr & Hrest).
    exists e, s'. split; [| exact Hrest].
    unfold throw.ValueErrWithContext, bind. now rewrite Hr.
Qed.

End ThrowExtras.

(** ** Package try: further properties of registration *)

Section RegistrationExtras.
Context `{Runtime}.

Lemma register_fields (ts : try.ptr) (r : Registration) (t : try.Try) (index : Z) :
  let t' := snd (register ts r t) in
  try.specificHandlers t' !! index
    = match r with
      | RIndex i (Some h) =>
          if decide (i = index /\ ~ reserved index) then Some h
          else try.specificHandlers t !! index
      | _ => try.specificHandlers t !! index
      end /\
  default [] (try.groupHandlers t' !! index)
    = default [] (try.groupHandlers t !! index)
      ++ match r with
         | RGroup group (Some h) =>
             if decide (reserved index) then []
             else replicate (occurrences index group) h
         | _ => []
         end /\
  (group_entries_nonempty t -> try.groupHandlers t' !! index <> Some []) /\
  try.globalHandler t'
    = match r with RCatch (Some h) => Some h | _ => try.globalHandler t end /\
  try.fallbackHandler t'
    = match r with RUnknown (Some h) => Some h | _ => try.fallbackHandler t end /\
  try.filters t'
    = try.filters t ++ match r with RFilter (Some f) => [f] | _ => [] end /\
  try.tryFunc t' = try.tryFunc t.
Proof.
  destruct r as [i [h|] | [h|] | [h|] | group [h|] | [f|]]; cbn [register];
    try (cbn; rewrite ?app_nil_r; repeat split; auto; fail).
  - (* Index *)
    unfold try.Index.
    destruct (bool_decide (i <> 0) && bool_decide (i <> throw.FallbackErrorIndex)) eqn:Hi;
      cbn; rewrite !app_nil_r.
    + apply code_guard_spec in Hi.
      repeat split; auto.
      destruct (decide (i = index /\ ~ reserved index)) as [[-> _]|Hn].
      * apply lookup_insert_eq.
      * rewrite lookup_insert_ne; [done |]. intros <-. tauto.
    + repeat split; auto.
      rewrite decide_False; [done |].
      intros [-> Hr]. apply Hr. apply dec_stable. intros Hn.
      apply code_guard_spec in Hn. congruence.
  - (* Group *)
    unfold try.Group. destruct group as [|g0 group]; cbn [length Nat.ltb Nat.leb snd].
    + cbn. rewrite !app_nil_r. repeat split; auto.
      destruct (decide (reserved index)); now rewrite !app_nil_r.
    + cbn [try.specificHandlers try.groupHandlers try.globalHandler try.fallbackHandler
           try.filters try.tryFunc].
      rewrite !app_nil_r, Group_loop_lookup.
      destruct (decide (reserved index)) as [Hr|Hr].
      * rewrite app_nil_r. repeat split; auto.
      * destruct (occurrences index (g0 :: group)) as [|n].
        -- cbn [replicate]. rewrite app_nil_r. repeat split; auto.
        -- repeat split; auto.
           intros _ [= Heq]. apply (f_equal length) in Heq.
           rewrite length_app in Heq. cbn in Heq. lia.
Qed.

Lemma chain_cons (ts : try.ptr) (r : Registration) (rs : list Registration) (t : try.Try) :
  snd (chain ts (r :: rs) t) = snd (chain ts rs (snd (register ts r t))).
Proof.
  cbn [chain]. pose proof (register_returns_receiver ts r t) as Hr.
  destruct (register ts r t) as [ts' t']. cbn in Hr. now subst ts'.
Qed.

Lemma chain_fields (ts : try.ptr) (rs : list Registration) (t : try.Try) (index : Z) :
  let t' := snd (chain ts rs t) in
  try.specificHandlers t' !! index
    = foldl (fun acc r =>
               match r with
               | RIndex i (Some h) =>
                   if decide (i = index /\ ~ reserved index) then Some h else acc
               | _ => acc
               end) (try.specificHandlers t !! index) rs /\
  default [] (try.groupHandlers t' !! index)
    = default [] (try.groupHandlers t !! index) ++ registered_group index rs /\
  (group_entries_nonempty t -> group_entries_nonempty t') /\
  try.globalHandler t'
    = foldl (fun acc r => match r with RCatch (Some h) => Some h | _ => acc end)
            (try.globalHandler t) rs /\
  try.fallbackHandler t'
    = foldl (fun acc r => match r with RUnknown (Some h) => Some h | _ => acc end)
            (try.fallbackHandler t) rs /\
  try.filters t' = try.filters t ++ registered_filters rs /\
  try.tryFunc t' = try.tryFunc t.
Proof.
  revert t. induction rs as [|r rs IH]; intros t.
  - cbn. rewrite !app_nil_r. repeat split; auto.
  - cbn zeta. rewrite chain_cons.
    destruct (IH (snd (register ts r t))) as (Hs & Hg & Hne & Hgl & Hfb & Hfl & Htf).
    destruct (register_fields ts r t index) as (Hs1 & Hg1 & _ & Hgl1 & Hfb1 & Hfl1 & Htf1).
    cbn zeta in *.
    rewrite Hs, Hg, Hgl, Hfb, Hfl, Htf, Hs1, Hg1, Hgl1, Hfb1, Hfl1, Htf1.
    cbn [foldl]. split; [done |]. split.
    { unfold registered_group. cbn [flat_map]. now rewrite <- app_assoc. }
    split.
    { intros Ht. apply Hne. intros j.
      now apply (register_fields ts r t j). }
    split; [now destruct r as [? [?|] | [?|] | [?|] | ? [?|] | [?|]] |].
    split; [now destruct r as [? [?|] | [?|] | [?|] | ? [?|] | [?|]] |].
    split; [| done].
    unfold registered_filters. rewrite <- app_assoc. f_equal.
    now destruct r as [? [?|] | [?|] | [?|] | ? [?|] | [?|]].
Qed.

(** X10. The registry after a chain of registration calls on a new engine:
    the specific handler of a code is the handler of the last [Index] call
    for it, the group handlers of a code are those of the [Group] calls that
    name it, once for each time they name it and in the order of the calls,
    the global and the fallback handler are those of the last [Catch] and the
    last [Unknown] call, the filters are those of the [Filter] calls in the
    order of the calls, and the protected block is the one given to [Run].
    Calls with a nil argument or for a reserved code count for nothing, and
    no group entry is an empty list. *)
Theorem registry_after_chain (ts : try.ptr) (tryHandler : option (Go unit))
    (rs : list Registration) (index : Z) :
  let t := snd (chain ts rs (try.Run tryHandler)) in
  try.specificHandlers t !! index = registered_specific index rs /\
  try.groupHandlers t !! index
    = match registered_group index rs with
      | [] => None
      | h :: hs => Some (h :: hs)
      end /\
  try.globalHandler t = registered_global rs /\
  try.fallbackHandler t = registered_fallback rs /\
  try.filters t = registered_filters rs /\
  try.tryFunc t = tryHandler.
Proof.
  destruct (chain_fields ts rs (try.Run tryHandler) index)
    as (Hs & Hg & Hne & Hgl & Hfb & Hfl & Htf).
  cbn zeta in *. cbn [try.Run try.specificHandlers try.groupHandlers try.globalHandler
                      try.fallbackHandler try.filters try.tryFunc] in *.
  rewrite lookup_empty in Hs. rewrite lookup_empty in Hg. cbn [default app] in Hg.
  split; [exact Hs |]. split; [| now repeat split].
  assert (Hnonempty : group_entries_nonempty (snd (chain ts rs (try.Run tryHandler)))).
  { apply Hne. intros j. cbn. now rewrite lookup_empty. }
  specialize (Hnonempty index). rewrite <- Hg.
  destruct (try.groupHandlers _ !! index) as [[|h hs]|]; cbn; done.
Qed.

End RegistrationExtras.

(** ** Package try: further properties of execution *)

Section ExecutionExtras.
Context `{Runtime}.

Lemma invoke_all_returned_calls (hs : list (try.Slot * try.ErrorHandler)) (e : Error.t)
    (m m' : try.Machine) (u : unit) :
  invoke_all hs e m = (Returned u, m') ->
  try.calls m' = try.calls m ++ handler_calls hs e.
Proof.
  destruct u. revert m. induction hs as [|[slot h] hs IH]; intros m.
  - cbn. unfold ret. intros [= <-]. now rewrite app_nil_r.
  - cbn [invoke_all]. unfold bind, try.invoke.
    destruct (h e (try.store m)) as [[[]|p] s]; [| done].
    intros Hrest. apply IH in Hrest. rewrite Hrest.
    cbn [try.calls handler_calls map fst]. now rewrite <- app_assoc.
Qed.

(** X11. An error that the filters accept and that some handler is there
    for is not raised again: when the handlers called for it return, the
    engine hands its finalizer a normal return, after the calls of exactly
    those handlers in the order of resolution; with a finalizer that returns
    (or none) the execution call returns. *)
Theorem handled_error_is_not_raised (ts : try.Try) (finally : option (Go unit))
    (m m1 m2 : try.Machine) (p : any) (e : Error.t) (s1 : Store) :
  try.call_tryFunc ts m = (Panicked p, m1) ->
  p <> VPass ->
  try.normalizeError p (try.store m1) = (Returned e, s1) ->
  try.applyFilters 0 (try.filters ts) e (try.mkMachine s1 (try.calls m1))
    = (Returned true, m2) ->
  resolution_order ts e <> [] ->
  Forall (fun sh => handler_returns (snd sh) e) (resolution_order ts e) ->
  exists m3,
    try.Finally ts finally m = try.deferred_finally finally (Returned tt) m3 /\
    try.calls m3 = try.calls m2 ++ handler_calls (resolution_order ts e) e /\
    (finally_returns finally -> fst (try.Finally ts finally m) = Returned tt).
Proof.
  intros Hb Hp Hn Hf Hsome Hret.
  destruct (invoke_all_returns _ e m2 Hret) as [s3 Hs3].
  assert (HF : try.Finally ts finally m
               = try.deferred_finally finally (Returned tt)
                   (try.mkMachine s3 (try.calls m2 ++ handler_calls (resolution_order ts e) e))).
  { apply (Finally_eq _ _ _ _ _ _ _ Hb).
    rewrite (recovered_payload _ _ _ _ _ Hp Hn).
    rewrite (executeHandlers_accepted _ _ _ _ Hf), Hs3.
    destruct (resolution_order ts e); [done | reflexivity]. }
  eexists. split; [exact HF |]. split; [reflexivity |].
  intros Hfin. rewrite HF. now apply deferred_finally_returns.
Qed.

(** X12. When the protected block returns, nothing is resolved: no error is
    normalized, no filter and no handler is called, and the finalizer gets
    the store the block left and a normal return to hand on. *)
Theorem normal_return_skips_resolution (ts : try.Try) (finally : option (Go unit))
    (block : Go unit) (m : try.Machine) (s1 : Store) :
  try.tryFunc ts = Some block ->
  block (try.store m) = (Returned tt, s1) ->
  try.Finally ts finally m
    = try.deferred_finally finally (Returned tt)
        (try.mkMachine s1 (try.calls m ++ [try.EvTry])) /\
  try.calls (snd (try.Finally ts finally m))
    = try.calls m ++ [try.EvTry] ++ finally_calls finally /\
  (finally_returns finally -> fst (try.Finally ts finally m) = Returned tt).
Proof.
  intros Hts Hb.
  assert (HF : try.Finally ts finally m
               = try.deferred_finally finally (Returned tt)
                   (try.mkMachine s1 (try.calls m ++ [try.EvTry]))).
  { apply Finally_eq with (r := Returned tt)
                          (m1 := try.mkMachine s1 (try.calls m ++ [try.EvTry])).
    - unfold try.call_tryFunc. rewrite Hts. now apply invoke_eq.
    - reflexivity. }
  split; [exact HF |]. split.
  - rewrite HF.
    destruct (try.deferred_finally finally (Returned tt) _) as [r3 m3] eqn:Hd.
    apply deferred_finally_calls in Hd. cbn [snd try.calls] in *.
    now rewrite Hd, <- app_assoc.
  - intros Hfin. rewrite HF. now apply deferred_finally_returns.
Qed.

(** X13. A filter that panics ends resolution with its panic: the filters
    before it and the filter itself have been called, no filter after it and
    no handler is called, and the store is the one the filter left. *)
Theorem filter_panic_ends_resolution (ts : try.Try) (e : Error.t)
    (pre post : list try.FilterFunc) (f : try.FilterFunc)
    (m m1 : try.Machine) (q : any) (s2 : Store) :
  try.filters ts = pre ++ f :: post ->
  try.applyFilters 0 pre e m = (Returned true, m1) ->
  f e (try.store m1) = (Panicked q, s2) ->
  try.executeHandlers ts e m
    = (Panicked q, try.mkMachine s2 (try.calls m ++ filter_calls 0 (S (length pre)) e)).
Proof.
  intros Hfs Hpre Hf.
  unfold try.executeHandlers. unfold bind at 1.
  rewrite Hfs, applyFilters_app, Hpre.
  cbn [try.applyFilters]. unfold bind.
  rewrite (invoke_eq _ _ _ _ _ Hf).
  rewrite (applyFilters_accepted_calls _ _ _ _ _ Hpre).
  now rewrite filter_calls_S, <- app_assoc.
Qed.

(** X14. A handler that panics ends resolution with its panic: the handlers
    before it in the order of resolution and the handler itself have been
    called, the handlers after it, the global handler among them, are not,
    and the store is the one the handler left. *)
Theorem handler_panic_ends_resolution (ts : try.Try) (e : Error.t)
    (pre post : list (try.Slot * try.ErrorHandler)) (slot : try.Slot)
    (h : try.ErrorHandler) (m m1 m2 : try.Machine) (q : any) (s3 : Store) :
  try.applyFilters 0 (try.filters ts) e m = (Returned true, m1) ->
  resolution_order ts e = pre ++ (slot, h) :: post ->
  invoke_all pre e m1 = (Returned tt, m2) ->
  h e (try.store m2) = (Panicked q, s3) ->
  try.executeHandlers ts e m
    = (Panicked q,
       try.mkMachine s3 (try.calls m1 ++ handler_calls (pre ++ [(slot, h)]) e)).
Proof.
  intros Hf Horder Hpre Hh.
  rewrite (executeHandlers_accepted _ _ _ _ Hf), Horder.
  rewrite invoke_all_app, Hpre. cbn [invoke_all]. unfold bind.
  rewrite (invoke_eq _ _ _ _ _ Hh). cbn [and_then].
  rewrite (invoke_all_returned_calls _ _ _ _ _ Hpre).
  now rewrite handler_calls_app, <- app_assoc.
Qed.

(** X15. The engine does not recover the panic of a filter or a handler:
    when resolution ends with one, that panic, and not the error of the
    protected block, is what the finalizer finds pending and, if it returns,
    what the caller gets. *)
Theorem callback_panic_replaces_error (ts : try.Try) (finally : option (Go unit))
    (m m1 m2 : try.Machine) (p q : any) (e : Error.t) (s1 : Store) :
  try.call_tryFunc ts m = (Panicked p, m1) ->
  p <> VPass ->
  try.normalizeError p (try.store m1) = (Returned e, s1) ->
  try.executeHandlers ts e (try.mkMachine s1 (try.calls m1)) = (Panicked q, m2) ->
  try.Finally ts finally m = try.deferred_finally finally (Panicked q) m2 /\
  (finally_returns finally -> fst (try.Finally ts finally m) = Panicked q).
Proof.
  intros Hb Hp Hn He.
  assert (HF : try.Finally ts finally m = try.deferred_finally finally (Panicked q) m2).
  { apply (Finally_eq _ _ _ _ _ _ _ Hb).
    now rewrite (recovered_payload _ _ _ _ _ Hp Hn), He. }
  split; [exact HF |].
  intros Hfin. rewrite HF. now apply deferred_finally_returns.
Qed.

(** X16. A finalizer that panics decides how the execution call ends: its
    panic is what the caller gets, whether the protected block returned, its
    error was handled or filtered, or an error was about to be raised
    again. *)
Theorem finalizer_panic_overrides (ts : try.Try) (f : Go unit) (m : try.Machine) (q : any) :
  (forall s, exists s', f s = (Panicked q, s')) ->
  fst (try.Finally ts (Some f) m) = Panicked q.
Proof.
  intros Hf. unfold try.Finally.
  destruct (try.call_tryFunc ts m) as [r m1].
  destruct (try.recovered ts r m1) as [r' m2].
  cbn [try.deferred_finally].
  destruct (Hf (try.store m2)) as [s' Hs'].
  now rewrite (invoke_eq _ _ _ _ _ Hs').
Qed.

(** The shape of the calls of a run of [executeHandlers]. *)
Lemma executeHandlers_calls_shape (ts : try.Try) (e : Error.t) (m : try.Machine) :
  exists n k,
    try.calls (snd (try.executeHandlers ts e m))
      = try.calls m ++ filter_calls 0 n e
          ++ handler_calls (take k (resolution_order ts e)) e /\
    (n <= length (try.filters ts))%nat /\
    (k <> 0%nat -> n = length (try.filters ts)).
Proof.
  destruct (try.applyFilters 0 (try.filters ts) e m) as [[[|]|p] m1] eqn:Hf.
  - rewrite (executeHandlers_accepted _ _ _ _ Hf).
    apply applyFilters_accepted_calls in Hf.
    destruct (invoke_all (resolution_order ts e) e m1) as [r1 m2] eqn:Hh.
    apply invoke_all_calls in Hh as [k Hk].
    exists (length (try.filters ts)), k.
    split; [| split; [lia | done]].
    destruct r1; cbn [and_then snd]; now rewrite Hk, Hf, <- app_assoc.
  - rewrite (executeHandlers_rejected _ _ _ _ Hf).
    apply applyFilters_calls in Hf as (n & Hn & Hcalls).
    exists n, 0%nat. cbn [snd take handler_calls map].
    rewrite app_nil_r. split; [exact Hcalls |]. split; [exact Hn | done].
  - unfold try.executeHandlers. unfold bind at 1. rewrite Hf.
    apply applyFilters_calls in Hf as (n & Hn & Hcalls).
    exists n, 0%nat. cbn [snd take handler_calls map].
    rewrite app_nil_r. split; [exact Hcalls |]. split; [exact Hn | done].
Qed.

(** X17. In every run of [executeHandlers], however it ends, the calls made
    are calls of the first filters, in the order of the list, followed by
    calls of the first handlers in the order of resolution; a handler is
    called only when every filter has been called. *)
Theorem filters_come_before_handlers (ts : try.Try) (e : Error.t) (m : try.Machine) :
  exists n k,
    try.calls (snd (try.executeHandlers ts e m))
      = try.calls m ++ filter_calls 0 n e
          ++ handler_calls (take k (resolution_order ts e)) e /\
    (n <= length (try.filters ts))%nat /\
    (k <> 0%nat -> n = length (try.filters ts)).
Proof. apply executeHandlers_calls_shape. Qed.

Lemma group_slots_calls (ts : try.Try) (e : Error.t) (i : nat)
    (handlers : list try.ErrorHandler) :
  is_Some (try.groupHandlers ts !! Error.Index e) ->
  Forall (call_for ts e) (handler_calls (group_slots (Error.Index e) i handlers) e).
Proof.
  intros Hsome. revert i. induction handlers as [|h handlers IH]; intros i.
  - constructor.
  - cbn. constructor; [done | apply IH].
Qed.

Lemma resolution_order_calls (ts : try.Try) (e : Error.t) :
  Forall (call_for ts e) (handler_calls (resolution_order ts e) e).
Proof.
  unfold resolution_order. rewrite !handler_calls_app, !Forall_app.
  repeat split.
  - destruct (try.specificHandlers ts !! Error.Index e) as [h|] eqn:Hs;
      repeat constructor. now rewrite Hs.
  - destruct (try.groupHandlers ts !! Error.Index e) as [hs|] eqn:Hg;
      [| constructor].
    apply group_slots_calls. now rewrite Hg.
  - destruct (try.specificHandlers ts !! Error.Index e) as [h|] eqn:Hs;
      [constructor |].
    destruct (try.fallbackHandler ts) as [hf|] eqn:Hfb; [| constructor].
    cbn. constructor; [| constructor]. cbn. rewrite Hs, Hfb. eauto.
  - destruct (try.globalHandler ts) as [hg|] eqn:Hgl; [| constructor].
    cbn. constructor; [| constructor]. cbn. rewrite Hgl. eauto.
Qed.

(** X18. Resolution of an error calls nothing but the filters and the
    handlers that are there for the code of that error, always with that
    error: never the specific or group handler of another code, and never
    the fallback handler when a specific handler is registered for the
    code.  This holds however the run ends. *)
Theorem only_handlers_of_the_code_run (ts : try.Try) (e : Error.t) (m : try.Machine) :
  exists new,
    try.calls (snd (try.executeHandlers ts e m)) = try.calls m ++ new /\
    Forall (call_for ts e) new.
Proof.
  destruct (executeHandlers_calls_shape ts e m) as (n & k & Hcalls & _ & _).
  eexists. split; [exact Hcalls |].
  apply Forall_app. split.
  - apply Forall_map, Forall_forall. now intros j _.
  - unfold handler_calls. rewrite <- firstn_map. apply Forall_take.
    apply resolution_order_calls.
Qed.

(** X19. The two results of [executeHandlers]: filtered means that the
    chain of filters ended with a rejection, and then handled is false;
    not filtered means that every filter accepted, and then handled tells
    whether there was a handler to call.  Handled and filtered are never
    both true. *)
Theorem handled_and_filtered (ts : try.Try) (e : Error.t) (m : try.Machine) :
  match try.executeHandlers ts e m with
  | (Returned (handled, filtered), m') =>
      if filtered
      then handled = false /\
           try.applyFilters 0 (try.filters ts) e m = (Returned false, m')
      else handled = some_handler (resolution_order ts e) /\
           exists m1, try.applyFilters 0 (try.filters ts) e m = (Returned true, m1)
  | (Panicked _, _) => True
  end.
Proof.
  destruct (try.applyFilters 0 (try.filters ts) e m) as [[[|]|p] m1] eqn:Hf.
  - rewrite (executeHandlers_accepted _ _ _ _ Hf).
    destruct (invoke_all (resolution_order ts e) e m1) as [[[]|q] m2]; cbn; eauto.
  - rewrite (executeHandlers_rejected _ _ _ _ Hf). now split.
  - unfold try.executeHandlers. unfold bind at 1. now rewrite Hf.
Qed.

Lemma applyFilters_returns (i : nat) (fs : list try.FilterFunc) (e : Error.t)
    (m : try.Machine) :
  Forall (fun f : try.FilterFunc => forall e s, exists b s', f e s = (Returned b, s')) fs ->
  exists b m1, try.applyFilters i fs e m = (Returned b, m1).
Proof.
  intros Hfs. revert i m. induction Hfs as [|f fs Hf _ IH]; intros i m.
  - do 2 eexists. reflexivity.
  - cbn [try.applyFilters]. unfold bind, try.invoke.
    destruct (Hf e (try.store m)) as (b & s & Hs). rewrite Hs.
    destruct b; cbn [negb]; [apply IH | do 2 eexists; reflexivity].
Qed.

(** X20. When the filters, the handlers and the finalizer of an engine
    return, whatever the protected block raises, the execution call either
    returns or raises a [throw.Error] for whose code the engine has no
    handler: the caller never gets the raw payload of the block, and never
    an error that a handler was called for. *)
Theorem caller_gets_only_unhandled_errors (ts : try.Try) (finally : option (Go unit))
    (m : try.Machine) :
  filters_return ts ->
  handlers_return ts ->
  finally_returns finally ->
  fst (try.Finally ts finally m) = Returned tt \/
  exists e, fst (try.Finally ts finally m) = Panicked (VError e) /\
            resolution_order ts e = [].
Proof.
  intros Hfs Hhs Hfin.
  destruct (try.call_tryFunc ts m) as [r m1] eqn:Hb.
  assert (Hrec : exists m2, try.recovered ts r m1 = (Returned tt, m2) \/
                   exists e, try.recovered ts r m1 = (Panicked (VError e), m2) /\
                             resolution_order ts e = []).
  { destruct r as [[]|p]; [eexists; left; reflexivity |].
    assert (Hpass : p = VPass \/ p <> VPass) by (destruct p; auto; right; discriminate).
    destruct Hpass as [-> | Hp]; [eexists; left; reflexivity |].
    destruct (normalizeError_returns p (try.store m1)) as (e & s1 & Hn).
    rewrite (recovered_payload _ _ _ _ _ Hp Hn).
    destruct (applyFilters_returns 0 (try.filters ts) e
                (try.mkMachine s1 (try.calls m1)) Hfs) as ([|] & m2 & Hf).
    - rewrite (executeHandlers_accepted _ _ _ _ Hf).
      destruct (invoke_all_returns _ e m2 (Hhs e)) as [s3 Hs3]. rewrite Hs3.
      cbn [and_then fst snd negb].
      destruct (resolution_order ts e) eqn:Horder; cbn [some_handler negb andb];
        eexists; [right; eauto | left; reflexivity].
    - rewrite (executeHandlers_rejected _ _ _ _ Hf). eexists. left. reflexivity. }
  destruct Hrec as [m2 [Hr | (e & Hr & Hnone)]].
  - left. rewrite (Finally_eq _ _ _ _ _ _ _ Hb Hr).
    now apply deferred_finally_returns.
  - right. exists e. split; [| exact Hnone].
    rewrite (Finally_eq _ _ _ _ _ _ _ Hb Hr).
    now apply deferred_finally_returns.
Qed.

End ExecutionExtras.

(** ** The further properties at work on the scenarios *)

Section ExtraWitnesses.
#[local] Existing Instance test_runtime.

(** X11 on [not_found_engine]: the error is handled, the call returns. *)
Lemma handled_error_is_not_raised_witness :
  fst (try.Finally not_found_engine (Some (set_flag "finallyCalled")) start_machine)
  = Returned tt.
Proof.
  destruct (handled_error_is_not_raised not_found_engine
              (Some (set_flag "finallyCalled"))
              start_machine (try.mkMachine start [try.EvTry])
              (try.mkMachine start [try.EvTry])
              (VError (raised 404 "not found")) (raised 404 "not found") start)
    as (m3 & _ & _ & Hret).
  - reflexivity.
  - discriminate.
  - reflexivity.
  - reflexivity.
  - discriminate.
  - repeat constructor; intros s; eexists; reflexivity.
  - apply Hret. intros s. eexists. reflexivity.
Defined.

(** X12 on [TestTryDo]. *)
Lemma normal_return_skips_resolution_witness :
  try.Finally (try.Run (Some (set_flag "called"))) None start_machine
  = (Returned tt, try.mkMachine (mkStore ∅ ["called"%string]) [try.EvTry]).
Proof.
  refine (proj1 (normal_return_skips_resolution (try.Run (Some (set_flag "called"))) None
                   (set_flag "called") start_machine (mkStore ∅ ["called"%string]) _ _));
    reflexivity.
Defined.

(** X13: the second filter panics, the third filter and the handler are
    not called. *)
Lemma filter_panic_ends_resolution_witness :
  try.executeHandlers failing_filter_engine (raised 403 "forbidden") start_machine
  = (Panicked (VString "filter failed"),
     try.mkMachine (mkStore ∅ ["filter1Called"%string])
       [try.EvCall (try.SFilter 0) (raised 403 "forbidden");
        try.EvCall (try.SFilter 1) (raised 403 "forbidden")]).
Proof.
  refine (filter_panic_ends_resolution failing_filter_engine (raised 403 "forbidden")
            [from_400] [never_reached] failing_filter start_machine
            (try.mkMachine (mkStore ∅ ["filter1Called"%string])
               [try.EvCall (try.SFilter 0) (raised 403 "forbidden")])
            (VString "filter failed") (mkStore ∅ ["filter1Called"%string]) _ _ _);
    reflexivity.
Defined.

(** X14: the specific handler panics, the global handler is not called. *)
Lemma handler_panic_ends_resolution_witness :
  try.executeHandlers failing_handler_engine (raised 404 "not found") start_machine
  = (Panicked (VString "handler failed"),
     try.mkMachine start [try.EvCall (try.SSpecific 404) (raised 404 "not found")]).
Proof.
  refine (handler_panic_ends_resolution failing_handler_engine (raised 404 "not found")
            [] [(try.SGlobal, handler "globalCaught")] (try.SSpecific 404) failing_handler
            start_machine start_machine start_machine
            (VString "handler failed") start _ _ _ _);
    reflexivity.
Defined.

(** X15: the panic of the handler is what the caller gets. *)
Lemma callback_panic_replaces_error_witness :
  fst (try.Finally failing_handler_engine (Some (set_flag "finallyCalled")) start_machine)
  = Panicked (VString "handler failed").
Proof.
  refine (proj2 (callback_panic_replaces_error failing_handler_engine
                   (Some (set_flag "finallyCalled"))
                   start_machine (try.mkMachine start [try.EvTry])
                   (try.mkMachine start
                      [try.EvTry; try.EvCall (try.SSpecific 404) (raised 404 "not found")])
                   (VError (raised 404 "not found")) (VString "handler failed")
                   (raised 404 "not found") start _ _ _ _) _).
  - reflexivity.
  - discriminate.
  - reflexivity.
  - reflexivity.
  - intros s. eexists. reflexivity.
Defined.

(** X16: a finalizer that panics after a handled error. *)
Lemma finalizer_panic_overrides_witness :
  fst (try.Finally not_found_engine (Some (panic (VString "cleanup failed"))) start_machine)
  = Panicked (VString "cleanup failed").
Proof.
  apply (finalizer_panic_overrides not_found_engine (panic (VString "cleanup failed"))
           start_machine (VString "cleanup failed")).
  intros s. eexists. reflexivity.
Defined.

(** X20 on [unhandled_engine] with a finalizer: two filters, one of which
    reads the context, and a handler for 404. *)
Lemma caller_gets_only_unhandled_errors_witness :
  fst (try.Finally unhandled_engine (Some (set_flag "finallyCalled")) start_machine)
    = Returned tt \/
  exists e, fst (try.Finally unhandled_engine (Some (set_flag "finallyCalled"))
                   start_machine)
            = Panicked (VError e) /\
            resolution_order unhandled_engine e = [].
Proof.
  apply (caller_gets_only_unhandled_errors unhandled_engine
           (Some (set_flag "finallyCalled")) start_machine).
  - repeat constructor; intros e s; do 2 eexists; reflexivity.
  - assert (Hs : try.specificHandlers unhandled_engine
                 = <[404 := handler "handlerCalled"]> ∅) by reflexivity.
    assert (Hg : try.groupHandlers unhandled_engine = ∅) by reflexivity.
    intros e. unfold resolution_order. rewrite Hs, Hg, lookup_empty.
    destruct (decide (404 = Error.Index e)) as [<- | Hne].
    + rewrite lookup_insert_eq. repeat constructor. intros s. eexists. reflexivity.
    + rewrite lookup_insert_ne by exact Hne. rewrite lookup_empty. constructor.
  - intros s. eexists. reflexivity.
Defined.

End ExtraWitnesses.
